(** * A shallow embedding of the broker of zeromq-rs-tryout (src/main.rs)

    The broker's tables are modelled as in the Rust code: [HashMap]s keyed
    by identity / topic name become [gmap string _], [Vec]s become lists.
    Stateful methods taking [&mut self] run in a small state monad over a
    [World], which holds the broker and the list of outbound events
    (datagrams put on the socket and diagnostic lines).  A Rust panic
    ([unwrap] on [None], indexing a [HashMap] with a missing key) aborts
    the computation.

    The transport is abstracted by [deliver : string -> bool]: whether the
    3-frame non-waiting send to an identity succeeds (ROUTER socket with
    mandatory routing).  The wall clock is a number of seconds [now],
    fixed while one message is processed. *)

From stdpp Require Import base gmap strings list.
From Stdlib Require String.

(** ** Data model (lines 6-73) *)

Module Client.
Record t := mk { name : string; is_worker : bool; topics : list string }.

(** [Client::new] *)
Definition new (name : string) (is_worker : bool) : t := mk name is_worker [].

Definition set_topics (c : t) (ts : list string) : t :=
  mk (name c) (is_worker c) ts.
End Client.

Module Topic.
Record t := mk {
  name : string;
  workers : list string;
  next_worker_index : nat;
  clients : list string }.

(** [Topic::new] *)
Definition new (name : string) : t := mk name [] 0 [].

Definition set_workers (tp : t) (ws : list string) : t :=
  mk (name tp) ws (next_worker_index tp) (clients tp).
Definition set_next_worker_index (tp : t) (i : nat) : t :=
  mk (name tp) (workers tp) i (clients tp).
Definition set_clients (tp : t) (cs : list string) : t :=
  mk (name tp) (workers tp) (next_worker_index tp) cs.
End Topic.

Module Task.
(** [retry] is a [u8]; [date] is the [SystemTime] in whole seconds. *)
Record t := mk {
  worker_topic : string;
  worker_name : option string;
  response_topic : string;
  retry : N;
  payload : string;
  date : nat;
  sent : bool }.

(** [Task::new], stamped with the current time. *)
Definition new (worker_topic response_topic payload : string) (now : nat) : t :=
  mk worker_topic None response_topic 0 payload now false.

Definition set_worker_name (x : t) (w : option string) : t :=
  mk (worker_topic x) w (response_topic x) (retry x) (payload x) (date x) (sent x).
Definition set_sent (x : t) (b : bool) : t :=
  mk (worker_topic x) (worker_name x) (response_topic x) (retry x) (payload x) (date x) b.
(** [task.date = SystemTime::now(); task.retry += 1;] the increment of the
    [u8] is written with its wrap-around (release build). *)
Definition stamp (x : t) (now : nat) : t :=
  mk (worker_topic x) (worker_name x) (response_topic x)
     (N.modulo (retry x + 1) 256) (payload x) now (sent x).
End Task.

Module Broker.
Record t := mk {
  timeout_as_secs : nat;
  clients : gmap string Client.t;
  topics : gmap string Topic.t;
  tasks : list Task.t;
  tasks_to_retry : list Task.t }.

(** [Broker::new]: [TASK_TIMEOUT] parsed as [u64], 60 when absent or
    invalid. *)
Definition new (task_timeout : option nat) : t :=
  mk (default 60 task_timeout) ∅ ∅ [] [].

Definition set_clients (b : t) (m : gmap string Client.t) : t :=
  mk (timeout_as_secs b) m (topics b) (tasks b) (tasks_to_retry b).
Definition set_topics (b : t) (m : gmap string Topic.t) : t :=
  mk (timeout_as_secs b) (clients b) m (tasks b) (tasks_to_retry b).
Definition set_tasks (b : t) (l : list Task.t) : t :=
  mk (timeout_as_secs b) (clients b) (topics b) l (tasks_to_retry b).
Definition set_tasks_to_retry (b : t) (l : list Task.t) : t :=
  mk (timeout_as_secs b) (clients b) (topics b) (tasks b) l.
End Broker.

(** Observable outputs: a 3-frame datagram [identity, "", payload] that was
    enqueued, the "no worker" diagnostic and the [print_debug] line. *)
Inductive Event :=
| Sent (identity payload : string)
| NoWorker (worker_topic : string)
| Debug (workers clients topics tasks waiting : nat).

Record World := mkWorld { broker : Broker.t; out : list Event }.

(** ** The state monad with panics *)

Inductive Fault := Panic | OutOfFuel.

Inductive Res (A : Type) :=
| Done (a : A) (w : World)
| Abort (f : Fault).
Arguments Done {A} a w.
Arguments Abort {A} f.

Definition M (A : Type) : Type := World -> Res A.

Definition ret {A} (a : A) : M A := fun w => Done a w.
Definition bind {A B} (m : M A) (k : A -> M B) : M B :=
  fun w => match m w with Done a w' => k a w' | Abort f => Abort f end.
Definition panic {A} : M A := fun _ => Abort Panic.
Definition gets {A} (f : Broker.t -> A) : M A := fun w => Done (f (broker w)) w.
Definition modify (f : Broker.t -> Broker.t) : M unit :=
  fun w => Done tt (mkWorld (f (broker w)) (out w)).
Definition emit (e : Event) : M unit :=
  fun w => Done tt (mkWorld (broker w) (out w ++ [e])).

Global Instance M_ret : MRet M := @ret.
Global Instance M_bind : MBind M := fun A B k m => bind m k.

Fixpoint for_each {A} (f : A -> M unit) (l : list A) : M unit :=
  match l with
  | [] => ret tt
  | x :: l' => f x ;; for_each f l'
  end.

(** ** Vec helpers *)

(** [iter().position(p)] *)
Fixpoint position {A} (p : A -> bool) (l : list A) : option nat :=
  match l with
  | [] => None
  | x :: l' => if p x then Some 0 else S <$> position p l'
  end.

(** [Vec::remove(i)]: panics (here [None]) when [i] is out of range. *)
Fixpoint vec_remove {A} (i : nat) (l : list A) : option (list A) :=
  match l, i with
  | [], _ => None
  | _ :: l', 0 => Some l'
  | x :: l', S i' => cons x <$> vec_remove i' l'
  end.

Definition is_empty {A} (l : list A) : bool :=
  match l with [] => true | _ => false end.

Definition upd_clients (f : gmap string Client.t -> gmap string Client.t) : M unit :=
  modify (fun b => Broker.set_clients b (f (Broker.clients b))).
Definition upd_topics (f : gmap string Topic.t -> gmap string Topic.t) : M unit :=
  modify (fun b => Broker.set_topics b (f (Broker.topics b))).

(** ** The broker's methods *)

Section Operations.
(** Outcome of a non-waiting 3-frame send to an identity. *)
Variable deliver : string -> bool.
(** [SystemTime::now()] in seconds while one message is handled. *)
Variable now : nat.

(** [socket.send(identity, SNDMORE|DONTWAIT) .and_then(send "") .and_then(send
    payload)]: with mandatory routing an unreachable identity makes the
    first frame fail, so nothing is enqueued. *)
Definition send3 (identity payload : string) : M bool :=
  if deliver identity then emit (Sent identity payload) ;; ret true
  else ret false.

(** [get_next_worker_name] (lines 88-101) *)
Definition get_next_worker_name (topic_name : string) : M (option string) :=
  t ← gets (fun b => Broker.topics b !! topic_name);
  match t with
  | None => ret None
  | Some topic =>
      match Topic.workers topic !! Topic.next_worker_index topic with
      | Some worker_name =>
          upd_topics (<[topic_name := Topic.set_next_worker_index topic
                                        (S (Topic.next_worker_index topic))]>) ;;
          ret (Some worker_name)
      | None =>
          upd_topics (<[topic_name := Topic.set_next_worker_index topic 1]>) ;;
          ret (head (Topic.workers topic))
      end
  end.

(** [add_client] (lines 103-121) *)
Definition add_client (is_worker : bool) (identity response_topic : string) : M unit :=
  modify (fun b =>
    let client := default (Client.new identity is_worker) (Broker.clients b !! identity) in
    let client := Client.set_topics client (Client.topics client ++ [response_topic]) in
    let b := Broker.set_clients b (<[identity := client]> (Broker.clients b)) in
    let topic := default (Topic.new response_topic) (Broker.topics b !! response_topic) in
    let topic :=
      if is_worker then Topic.set_workers topic (Topic.workers topic ++ [identity])
      else Topic.set_clients topic (Topic.clients topic ++ [identity]) in
    Broker.set_topics b (<[response_topic := topic]> (Broker.topics b))).

(** [remove_worker_from_topics] (lines 206-213): for each of the worker's
    topics that still exists, remove the worker from its worker list;
    [position(..).unwrap()] panics when it is not there. *)
Definition remove_worker_from_topics (worker : Client.t) : M unit :=
  for_each (fun topic_name =>
    t ← gets (fun b => Broker.topics b !! topic_name);
    match t with
    | None => ret tt
    | Some topic =>
        match position (String.eqb (Client.name worker)) (Topic.workers topic) with
        | None => panic
        | Some i =>
            match vec_remove i (Topic.workers topic) with
            | None => panic
            | Some ws => upd_topics (<[topic_name := Topic.set_workers topic ws]>)
            end
        end
    end) (Client.topics worker).

(** [remove_worker] (lines 215-219): [self.clients[worker_name]] panics on
    a missing key. *)
Definition remove_worker (worker_name : string) : M unit :=
  c ← gets (fun b => Broker.clients b !! worker_name);
  match c with
  | None => panic
  | Some worker =>
      remove_worker_from_topics worker ;;
      upd_clients (delete worker_name)
  end.

(** [send_task] (lines 123-145); the task passed by [&mut] is returned. *)
Definition send_task (task : Task.t) : M (option string * Task.t) :=
  let task := Task.stamp task now in
  wn ← get_next_worker_name (Task.worker_topic task);
  let task := Task.set_worker_name task wn in
  match wn with
  | None => ret (None, task)
  | Some worker_name =>
      ok ← send3 worker_name (Task.payload task);
      let task := Task.set_sent task ok in
      (if ok then ret tt else remove_worker worker_name) ;;
      ret (Some worker_name, task)
  end.

(** The [loop] of [send_task_and_retry] (lines 147-166), run with a fuel
    bound; [dispatch_terminates] below shows that the bound used by
    [send_task_and_retry] is never reached. *)
Fixpoint dispatch (fuel : nat) (task : Task.t) : M unit :=
  match fuel with
  | O => fun _ => Abort OutOfFuel
  | S fuel' =>
      r ← send_task task;
      match r with
      | (Some _, task) =>
          if Task.sent task
          then modify (fun b => Broker.set_tasks b (Broker.tasks b ++ [task]))
          else dispatch fuel' task
      | (None, task) =>
          emit (NoWorker (Task.worker_topic task)) ;;
          modify (fun b => Broker.set_tasks_to_retry b (Broker.tasks_to_retry b ++ [task]))
      end
  end.

Definition send_task_and_retry (task : Task.t) : M unit :=
  fun w => dispatch (S (size (Broker.clients (broker w)))) task w.

(** One iteration of the [for_each] of [send_response] (lines 175-194). *)
Definition respond_to (topic : Topic.t) (payload : string) (name : string) : M unit :=
  _ ← send3 name payload;
  c ← gets (fun b => Broker.clients b !! name);
  match c with
  | None => ret tt
  | Some client =>
      match position (String.eqb (Topic.name topic)) (Client.topics client) with
      | None => panic
      | Some i =>
          match vec_remove i (Client.topics client) with
          | None => panic
          | Some ts =>
              upd_clients (<[name := Client.set_topics client ts]>) ;;
              (if is_empty ts then upd_clients (delete (Client.name client)) else ret tt)
          end
      end
  end.

(** [send_response] (lines 168-204) *)
Definition send_response (topic_name payload : string) : M unit :=
  t ← gets (fun b => Broker.topics b !! topic_name);
  match t with
  | None => ret tt
  | Some topic =>
      for_each (respond_to topic payload) (Topic.clients topic) ;;
      t' ← gets (fun b => Broker.topics b !! topic_name);
      match t' with
      | None => panic
      | Some tp =>
          upd_topics (<[topic_name := Topic.set_clients tp []]>) ;;
          (if is_empty (Topic.workers tp) then upd_topics (delete topic_name) else ret tt) ;;
          modify (fun b => Broker.set_tasks b
            (List.filter (fun task => negb (String.eqb (Task.response_topic task) topic_name))
               (Broker.tasks b)))
      end
  end.

(** [retry_tasks] (lines 221-228) *)
Definition retry_tasks : M unit :=
  ts ← gets Broker.tasks_to_retry;
  modify (fun b => Broker.set_tasks_to_retry b []) ;;
  for_each send_task_and_retry ts.

(** The client part of the cascade of [remove_timeout_tasks] (lines
    239-256): every client drops the first occurrence of the topic from
    its list ([position] is always in range, so [remove] cannot panic);
    then the clients whose list is empty are removed by name.  Clients
    are independent of each other, so the order of [iter_mut] does not
    matter. *)
Definition drop_subscription (response_topic : string) (client : Client.t) : Client.t :=
  match position (String.eqb response_topic) (Client.topics client) with
  | None => client
  | Some i => Client.set_topics client (default (Client.topics client)
                                         (vec_remove i (Client.topics client)))
  end.

Definition sweep_clients (response_topic : string) (m : gmap string Client.t)
  : gmap string Client.t :=
  let m := drop_subscription response_topic <$> m in
  let clients_to_remove :=
    map (fun kc => Client.name kc.2)
      (List.filter (fun kc => is_empty (Client.topics kc.2)) (map_to_list m)) in
  foldr delete m clients_to_remove.

(** The body of the [for task in self.tasks.clone()] loop;
    [date.elapsed().unwrap()] panics when the date lies in the future. *)
Definition sweep_task (kept : list Task.t) (task : Task.t) : M (list Task.t) :=
  timeout ← gets Broker.timeout_as_secs;
  if now <? Task.date task then panic
  else if now - Task.date task <? timeout then ret (kept ++ [task])
  else
    upd_topics (delete (Task.response_topic task)) ;;
    upd_clients (sweep_clients (Task.response_topic task)) ;;
    ret kept.

Fixpoint fold_m {A B} (f : A -> B -> M A) (a : A) (l : list B) : M A :=
  match l with
  | [] => ret a
  | x :: l' => a' ← f a x; fold_m f a' l'
  end.

(** [remove_timeout_tasks] (lines 230-261) *)
Definition remove_timeout_tasks : M unit :=
  ts ← gets Broker.tasks;
  kept ← fold_m sweep_task [] ts;
  modify (fun b => Broker.set_tasks b kept).

(** [print_debug] (lines 265-277) *)
Definition print_debug : M unit :=
  b ← gets id;
  let cs := (map_to_list (Broker.clients b)).*2 in
  emit (Debug (length (List.filter Client.is_worker cs))
              (length (List.filter (fun c => negb (Client.is_worker c)) cs))
              (size (Broker.topics b)) (length (Broker.tasks b))
              (length (Broker.tasks_to_retry b))).

(** A message once its four frames are assembled (lines 299-315). *)
Record Msg := mkMsg {
  identity : string; topic : string; response_topic : string; payload : string }.

(** The handling of one assembled message by the event loop (lines
    316-350). *)
Definition step (m : Msg) : M unit :=
  (if String.eqb (topic m) "@@PING" then
     c ← gets (fun b => Broker.clients b !! identity m);
     (if String.prefix "worker" (identity m) && match c with None => true | Some _ => false end
      then _ ← send3 (identity m) "@@REGISTER"; ret tt else ret tt) ;;
     _ ← send3 (identity m) "@@PONG"; ret tt
   else if String.eqb (topic m) "@@REGISTER" then
     add_client true (identity m) (response_topic m) ;;
     retry_tasks
   else if String.eqb (response_topic m) "" then
     send_response (topic m) (payload m)
   else
     add_client false (identity m) (response_topic m) ;;
     send_task_and_retry (Task.new (topic m) (response_topic m) (payload m) now)) ;;
  remove_timeout_tasks ;;
  (if negb (String.eqb (topic m) "@@PING") then print_debug else ret tt).

Fixpoint run (ms : list Msg) : M unit :=
  match ms with
  | [] => ret tt
  | m :: ms' => step m ;; run ms'
  end.
End Operations.

Arguments mkMsg : clear implicits.

(** The broker as [main] starts it, with the default timeout. *)
Definition init : World := mkWorld (Broker.new None) [].

(** ** Helpers for the statements *)

Definition all_reachable (_ : string) : bool := true.

(** The world after the cursor of topic [name] (row [tp]) is set to [i]. *)
Definition with_cursor (w : World) (name : string) (tp : Topic.t) (i : nat) : World :=
  mkWorld (Broker.set_topics (broker w)
             (<[name := Topic.set_next_worker_index tp i]> (Broker.topics (broker w))))
          (out w).

(** The replies of a ping: the optional [@@REGISTER] hint and the [@@PONG]. *)
Definition ping_replies (deliver : string -> bool) (b : Broker.t) (identity : string)
  : list Event :=
  (if String.prefix "worker" identity
      && match Broker.clients b !! identity with None => true | Some _ => false end
      && deliver identity
   then [Sent identity "@@REGISTER"] else [])
  ++ (if deliver identity then [Sent identity "@@PONG"] else []).

(** A worker [w1] on topic [T] and a request of client [c1] answered on
    [R], handled at time 0. *)
Definition scenario_in_flight : list Msg :=
  [mkMsg "w1" "@@REGISTER" "T" ""; mkMsg "c1" "T" "R" "P"].

(** Worker [w] on [T] is unreachable when client [c] asks for [T]. *)
Definition scenario_lost_worker : list Msg :=
  [mkMsg "w" "@@REGISTER" "T" ""; mkMsg "c" "T" "R" "p"].
Definition w_unreachable (s : string) : bool := negb (String.eqb s "w").

(** [x] first asks for [T0] (no worker: the task is parked), then registers
    as a worker on [T]. *)
Definition scenario_client_then_worker : list Msg :=
  [mkMsg "x" "T0" "R" "p"; mkMsg "x" "@@REGISTER" "T" ""].
Definition x_unreachable (s : string) : bool := negb (String.eqb s "x").

(** Client [c] subscribes twice to [R]: once through a task that reaches
    worker [w], once through a task parked for lack of a worker on [U]. *)
Definition scenario_double_subscription : list Msg :=
  [mkMsg "w" "@@REGISTER" "T" ""; mkMsg "c" "T" "R" "p"; mkMsg "c" "U" "R" "p"].

Lemma bind_ret_unit (m : M unit) (w : World) :
  bind m (fun _ => ret tt) w = m w.
Proof.
  unfold bind, ret. destruct (m w) as [[] w'|f]; reflexivity.
Qed.

(** ** Worker selection *)

Lemma get_next_worker_name_run (w : World) (name : string) (tp : Topic.t) :
  Broker.topics (broker w) !! name = Some tp ->
  get_next_worker_name name w =
    match Topic.workers tp !! Topic.next_worker_index tp with
    | Some x => Done (Some x) (with_cursor w name tp (S (Topic.next_worker_index tp)))
    | None => Done (head (Topic.workers tp)) (with_cursor w name tp 1)
    end.
Proof.
  intros Htp. unfold get_next_worker_name, mbind, M_bind, bind, gets.
  rewrite Htp. destruct (Topic.workers tp !! Topic.next_worker_index tp); reflexivity.
Qed.

(** C6: selection on a topic with cursor [c] and worker list [W] returns
    [W[c]] and moves the cursor to [c+1] when [c < len W]; otherwise it
    returns [W[0]] and sets the cursor to 1; it returns no worker when [W]
    is empty. *)
Theorem get_next_worker_name_spec (w : World) (name : string) (tp : Topic.t) :
  Broker.topics (broker w) !! name = Some tp ->
  let c := Topic.next_worker_index tp in
  let W := Topic.workers tp in
  (c < length W ->
     exists x, W !! c = Some x /\
       get_next_worker_name name w = Done (Some x) (with_cursor w name tp (S c)))
  /\ (length W <= c ->
       get_next_worker_name name w = Done (W !! 0) (with_cursor w name tp 1))
  /\ (W = [] -> exists w', get_next_worker_name name w = Done None w').
Proof.
  intros Htp c W. pose proof (get_next_worker_name_run w name tp Htp) as Hrun.
  fold c W in Hrun.
  split; [|split].
  - intros Hlt. destruct (lookup_lt_is_Some_2 W c Hlt) as [x Hx].
    exists x. split; [exact Hx|]. rewrite Hrun, Hx. reflexivity.
  - intros Hle. rewrite Hrun, (lookup_ge_None_2 W c Hle).
    destruct W; reflexivity.
  - intros HW. rewrite Hrun. rewrite HW. destruct c; eexists; reflexivity.
Qed.

(** C4 (amended): selection on a non-empty worker list returns one of the
    workers and leaves the cursor in [1, len W]; the worker list itself is
    not changed. *)
Theorem get_next_worker_name_in_range (w : World) (name : string) (tp : Topic.t) :
  Broker.topics (broker w) !! name = Some tp ->
  Topic.workers tp <> [] ->
  exists x i,
    get_next_worker_name name w = Done (Some x) (with_cursor w name tp i)
    /\ x ∈ Topic.workers tp
    /\ 1 <= i <= length (Topic.workers tp).
Proof.
  intros Htp Hne. rewrite (get_next_worker_name_run w name tp Htp).
  destruct (Topic.workers tp !! Topic.next_worker_index tp) as [x|] eqn:Hx.
  - exists x, (S (Topic.next_worker_index tp)). split; [reflexivity|]. split.
    + by apply list_elem_of_lookup_2 in Hx.
    + apply lookup_lt_Some in Hx. lia.
  - destruct (Topic.workers tp) as [|y ws] eqn:HW; [congruence|].
    exists y, 1. split; [reflexivity|]. split.
    + apply list_elem_of_here.
    + simpl. lia.
Qed.

(** ** The ping branch of the event loop *)

(** C1 (counterexample): a ping handled once the task of
    [scenario_in_flight] is 60 seconds old changes the in-flight table,
    because the timeout sweep also runs after pings. *)
Lemma ping_runs_sweep :
  match run all_reachable 0 scenario_in_flight init with
  | Done _ w1 =>
      match step all_reachable 60 (mkMsg "w1" "@@PING" "" "") w1 with
      | Done _ w2 => Broker.tasks (broker w1) <> [] /\ Broker.tasks (broker w2) = []
      | Abort _ => False
      end
  | Abort _ => False
  end.
Proof. vm_compute. split; [discriminate | reflexivity]. Qed.

(** C1 (amended): handling a ping only enqueues the ping replies and then
    runs the timeout sweep, as every message does; no table is changed
    otherwise, and no debug line is printed. *)
Theorem step_ping (deliver : string -> bool) (now : nat) (w : World)
    (ident response_topic payload : string) :
  step deliver now (mkMsg ident "@@PING" response_topic payload) w
  = remove_timeout_tasks now
      (mkWorld (broker w) (out w ++ ping_replies deliver (broker w) ident)).
Proof.
  destruct w as [b o].
  unfold step. cbn [topic identity]. rewrite String.eqb_refl. cbn [negb].
  cbv [mbind M_bind bind gets send3 emit ret ping_replies broker out].
  destruct (String.prefix "worker" ident), (Broker.clients b !! ident),
    (deliver ident); cbn -[remove_timeout_tasks];
    rewrite ?app_nil_r, <-?app_assoc; simpl app;
    destruct (remove_timeout_tasks now _) as [[] ?|]; reflexivity.
Qed.

(** C6 witness. *)
Definition sel_topic : Topic.t := Topic.mk "T" ["a"; "b"] 1 [].
Definition sel_world : World :=
  mkWorld (Broker.set_topics (Broker.new None) (<["T" := sel_topic]> ∅)) [].

Lemma get_next_worker_name_spec_witness :
  Broker.topics (broker sel_world) !! "T" = Some sel_topic /\
  (1 < 2 -> exists x, ["a"; "b"] !! 1 = Some x /\
     get_next_worker_name "T" sel_world = Done (Some x) (with_cursor sel_world "T" sel_topic 2)).
Proof.
  split; [reflexivity|].
  exact (proj1 (get_next_worker_name_spec sel_world "T" sel_topic eq_refl)).
Defined.

Lemma get_next_worker_name_in_range_witness :
  Broker.topics (broker sel_world) !! "T" = Some sel_topic /\
  Topic.workers sel_topic <> [] /\
  exists x i,
    get_next_worker_name "T" sel_world = Done (Some x) (with_cursor sel_world "T" sel_topic i)
    /\ x ∈ Topic.workers sel_topic
    /\ 1 <= i <= length (Topic.workers sel_topic).
Proof.
  assert (H1 : Broker.topics (broker sel_world) !! "T" = Some sel_topic) by reflexivity.
  assert (H2 : Topic.workers sel_topic <> []) by discriminate.
  split; [exact H1|]. split; [exact H2|].
  exact (get_next_worker_name_in_range sel_world "T" sel_topic H1 H2).
Defined.

(** ** Eviction of a worker that is also a client *)

Lemma position_None_iff (n : string) (l : list string) :
  position (String.eqb n) l = None <-> n ∉ l.
Proof.
  induction l as [|y l IH]; simpl.
  - split; [intros _; apply not_elem_of_nil | reflexivity].
  - rewrite elem_of_cons. destruct (String.eqb_spec n y) as [->|Hne].
    + split; [discriminate|]. intros H. exfalso. apply H. by left.
    + rewrite fmap_None, IH. split.
      * intros H [->|Hin]; [congruence | tauto].
      * intros H Hin. apply H. by right.
Qed.

Lemma remove_worker_from_topics_loop_panics (worker : Client.t) (T : string) (tp : Topic.t)
    (l : list string) (w : World) :
  T ∈ l ->
  Broker.topics (broker w) !! T = Some tp ->
  Client.name worker ∉ Topic.workers tp ->
  for_each (fun topic_name =>
      t ← gets (fun b => Broker.topics b !! topic_name);
      match t with
      | None => ret tt
      | Some topic =>
          match position (String.eqb (Client.name worker)) (Topic.workers topic) with
          | None => panic
          | Some i =>
              match vec_remove i (Topic.workers topic) with
              | None => panic
              | Some ws => upd_topics (<[topic_name := Topic.set_workers topic ws]>)
              end
          end
      end) l w = Abort Panic.
Proof.
  revert w. induction l as [|x l IH]; intros w Hin Htp Hnot.
  - by apply not_elem_of_nil in Hin.
  - cbn [for_each]. unfold mbind, M_bind, bind, gets. cbv beta.
    destruct (String.eqb_spec x T) as [->|Hne].
    + rewrite Htp. apply position_None_iff in Hnot. rewrite Hnot. reflexivity.
    + apply elem_of_cons in Hin. destruct Hin as [Hin|Hin]; [congruence|].
      destruct (Broker.topics (broker w) !! x) as [tx|] eqn:Hx.
      * destruct (position (String.eqb (Client.name worker)) (Topic.workers tx)) as [i|];
          [|reflexivity].
        destruct (vec_remove i (Topic.workers tx)) as [ws|]; [|reflexivity].
        unfold upd_topics, modify. apply IH; [exact Hin| |exact Hnot].
        cbn. rewrite lookup_insert_ne by congruence. exact Htp.
      * unfold ret. apply IH; assumption.
Qed.

(** C9: a reachable state where evicting a worker aborts the process.
    Identity [x] is a client on [R] and a worker on [T]; when a send to [x]
    fails, [remove_worker_from_topics] looks [x] up in the worker list of
    [R], finds nothing and unwraps [None].  In general, eviction panics as
    soon as one of the evicted identity's topics exists without listing it
    as a worker. *)
Theorem evict_worker_that_is_client_panics :
  run x_unreachable 0 (scenario_client_then_worker ++ [mkMsg "c" "T" "R2" "q"]) init
    = Abort Panic
  /\ (forall (w : World) (name T : string) (worker : Client.t) (tp : Topic.t),
        Broker.clients (broker w) !! name = Some worker ->
        T ∈ Client.topics worker ->
        Broker.topics (broker w) !! T = Some tp ->
        Client.name worker ∉ Topic.workers tp ->
        remove_worker name w = Abort Panic).
Proof.
  split.
  - vm_compute. reflexivity.
  - intros w name T worker tp Hw HT Htp Hnot.
    unfold remove_worker, mbind, M_bind, bind at 1, gets at 1. rewrite Hw.
    unfold bind. unfold remove_worker_from_topics.
    rewrite (remove_worker_from_topics_loop_panics worker T tp _ w HT Htp Hnot).
    reflexivity.
Qed.

(** The state reached by [scenario_client_then_worker]. *)
Definition world_of (r : Res unit) : World :=
  match r with Done _ w => w | Abort _ => init end.
Definition client_then_worker : World :=
  world_of (run all_reachable 0 scenario_client_then_worker init).

Lemma evict_worker_that_is_client_panics_witness :
  Broker.clients (broker client_then_worker) !! "x" = Some (Client.mk "x" false ["R"; "T"])
  /\ ("R" ∈ Client.topics (Client.mk "x" false ["R"; "T"]))
  /\ Broker.topics (broker client_then_worker) !! "R" = Some (Topic.mk "R" [] 0 ["x"])
  /\ (Client.name (Client.mk "x" false ["R"; "T"]) ∉ Topic.workers (Topic.mk "R" [] 0 ["x"]))
  /\ remove_worker "x" client_then_worker = Abort Panic.
Proof.
  assert (H1 : Broker.clients (broker client_then_worker) !! "x"
               = Some (Client.mk "x" false ["R"; "T"])) by (vm_compute; reflexivity).
  assert (H2 : "R" ∈ Client.topics (Client.mk "x" false ["R"; "T"]))
    by apply list_elem_of_here.
  assert (H3 : Broker.topics (broker client_then_worker) !! "R"
               = Some (Topic.mk "R" [] 0 ["x"])) by (vm_compute; reflexivity).
  assert (H4 : Client.name (Client.mk "x" false ["R"; "T"]) ∉ Topic.workers (Topic.mk "R" [] 0 ["x"]))
    by apply not_elem_of_nil.
  split; [exact H1|]. split; [exact H2|]. split; [exact H3|]. split; [exact H4|].
  exact (proj2 evict_worker_that_is_client_panics client_then_worker "x" "R" _ _ H1 H2 H3 H4).
Defined.

(** ** Topics left without workers nor clients *)

(** C2 (code bug): after the only worker of [T] is evicted, the row of [T]
    stays in the topic table with an empty worker list and an empty client
    list ([remove_worker] never deletes a topic, unlike [send_response]). *)
Theorem evicted_last_worker_leaves_empty_topic :
  match run w_unreachable 0 scenario_lost_worker init with
  | Done _ w => Broker.topics (broker w) !! "T" = Some (Topic.mk "T" [] 1 [])
  | Abort _ => False
  end.
Proof. vm_compute. reflexivity. Qed.

(** C4 (counterexample): the same run leaves the cursor of [T] at 1 while
    its worker list is empty. *)
Lemma cursor_above_worker_count :
  match run w_unreachable 0 scenario_lost_worker init with
  | Done _ w =>
      exists tp, Broker.topics (broker w) !! "T" = Some tp
                 /\ length (Topic.workers tp) < Topic.next_worker_index tp
  | Abort _ => False
  end.
Proof. vm_compute. eexists. split; [reflexivity | simpl; lia]. Qed.

(** C5 (code bug): from the state of [scenario_client_then_worker], a task
    for [T] selects [x]; the send fails, the eviction of [x] panics, and the
    dispatch loop ends neither with a sent task nor with a parked one. *)
Theorem dispatch_aborts_on_eviction :
  send_task_and_retry x_unreachable 0 (Task.new "T" "R2" "q" 0) client_then_worker
  = Abort Panic.
Proof. vm_compute. reflexivity. Qed.

(** ** Fan-out with a duplicated subscription *)

(** C3 (counterexample): client [c] is twice in the client list of [R];
    the reply on [R] is sent to it twice. *)
Lemma fan_out_duplicate_delivery :
  match run all_reachable 0 (scenario_double_subscription ++ [mkMsg "w" "R" "" "q"]) init with
  | Done _ w => drop 5 (out w) = [Sent "c" "q"; Sent "c" "q"; Debug 1 0 1 0 1]
  | Abort _ => False
  end.
Proof. vm_compute. reflexivity. Qed.

(** ** Timeout sweep with a duplicated subscription *)

(** C8 (counterexample): the task on [R] times out; the row of [R] is
    removed but [c] keeps one [R] in its subscription list. *)
Lemma sweep_keeps_duplicate_subscription :
  match run all_reachable 0 scenario_double_subscription init with
  | Done _ w =>
      match remove_timeout_tasks 60 w with
      | Done _ w' =>
          Broker.topics (broker w') !! "R" = None
          /\ Client.topics <$> (Broker.clients (broker w') !! "c") = Some ["R"]
      | Abort _ => False
      end
  | Abort _ => False
  end.
Proof. vm_compute. split; reflexivity. Qed.

(** ** Relations preserved by broker operations *)

Section Keeps.
Variable P : Broker.t -> Broker.t -> Prop.
Hypothesis P_refl : forall b, P b b.
Hypothesis P_trans : forall b1 b2 b3, P b1 b2 -> P b2 b3 -> P b1 b3.

(** Every successful run of [m] from [w] ends in a broker related to the
    one it started from. *)
Definition keeps_at {A} (w : World) (m : M A) : Prop :=
  forall a w', m w = Done a w' -> P (broker w) (broker w').
Definition keeps {A} (m : M A) : Prop := forall w, keeps_at w m.

Lemma ka_ret {A} w (a : A) : keeps_at w (ret a).
Proof. intros ? ? H. injection H as _ <-. apply P_refl. Qed.

Lemma ka_panic {A} w : keeps_at w (@panic A).
Proof. intros ? ? H. discriminate H. Qed.

Lemma ka_emit w e : keeps_at w (emit e).
Proof. intros ? ? H. injection H as _ <-. apply P_refl. Qed.

Lemma ka_modify w f : P (broker w) (f (broker w)) -> keeps_at w (modify f).
Proof. intros HP ? ? H. injection H as _ <-. exact HP. Qed.

Lemma ka_bind {A B} w (m : M A) (k : A -> M B) :
  keeps_at w m ->
  (forall a w1, m w = Done a w1 -> keeps_at w1 (k a)) ->
  keeps_at w (m ≫= k).
Proof.
  intros Hm Hk b w' H. unfold mbind, M_bind, bind in H.
  destruct (m w) as [a w1|f] eqn:Hmw; [|discriminate H].
  eapply P_trans; [apply (Hm a w1 Hmw) | apply (Hk a w1 eq_refl b w' H)].
Qed.

Lemma ka_gets_bind {A B} w (f : Broker.t -> A) (k : A -> M B) :
  keeps_at w (k (f (broker w))) -> keeps_at w (gets f ≫= k).
Proof. intros H. exact H. Qed.

Lemma ka_of_keeps {A} w (m : M A) : keeps m -> keeps_at w m.
Proof. intros H. apply H. Qed.

Lemma keeps_for_each {A} (f : A -> M unit) (l : list A) :
  (forall x, keeps (f x)) -> keeps (for_each f l).
Proof.
  intros Hf. induction l as [|x l IH]; intros w; simpl.
  - apply ka_ret.
  - apply ka_bind; [apply Hf | intros; apply IH].
Qed.

Lemma keeps_fold_m {A B} (f : A -> B -> M A) (a : A) (l : list B) :
  (forall a x, keeps (f a x)) -> keeps (fold_m f a l).
Proof.
  intros Hf. revert a. induction l as [|x l IH]; intros a w; simpl.
  - apply ka_ret.
  - apply ka_bind; [apply Hf | intros; apply IH].
Qed.
End Keeps.

Ltac ka_step refl trans :=
  match goal with
  | |- keeps_at _ _ (gets _ ≫= _) => apply ka_gets_bind; cbv beta
  | |- keeps_at _ _ (_ ≫= _) => apply (ka_bind _ trans); [auto | intros ?a ?w ?Hrun]
  | |- keeps_at _ _ (ret _) => apply (ka_ret _ refl)
  | |- keeps_at _ _ panic => apply ka_panic
  | |- keeps_at _ _ (emit _) => apply (ka_emit _ refl)
  | |- keeps_at _ _ (modify _) => apply ka_modify; cbv beta
  | |- keeps_at _ _ (upd_clients _) => apply ka_modify; cbv beta
  | |- keeps_at _ _ (upd_topics _) => apply ka_modify; cbv beta
  | |- keeps_at _ ?w (match ?x with _ => _ end) => destruct x eqn:?
  | |- keeps_at _ ?w (if ?x then _ else _) => destruct x eqn:?
  end.

(** *** Worker flags *)

(** No row appears, and the rows that remain keep their worker flag. *)
Definition flags_kept (b b' : Broker.t) : Prop :=
  forall id c', Broker.clients b' !! id = Some c' ->
    exists c, Broker.clients b !! id = Some c /\ Client.is_worker c = Client.is_worker c'.

Lemma flags_kept_refl b : flags_kept b b.
Proof. intros id c' H. eauto. Qed.

Lemma flags_kept_trans b1 b2 b3 : flags_kept b1 b2 -> flags_kept b2 b3 -> flags_kept b1 b3.
Proof.
  intros H12 H23 id c3 H3. destruct (H23 id c3 H3) as (c2 & H2 & E2).
  destruct (H12 id c2 H2) as (c1 & H1 & E1). exists c1. split; congruence.
Qed.

Lemma flags_kept_same_clients b b' :
  Broker.clients b' = Broker.clients b -> flags_kept b b'.
Proof. intros E id c' H. rewrite E in H. eauto. Qed.

Lemma flags_kept_delete b n :
  flags_kept b (Broker.set_clients b (delete n (Broker.clients b))).
Proof.
  intros id c' H. simpl in H. apply lookup_delete_Some in H as [_ H]. eauto.
Qed.

Lemma flags_kept_foldr_delete b (ns : list string) :
  flags_kept b (Broker.set_clients b (foldr delete (Broker.clients b) ns)).
Proof.
  induction ns as [|n ns IH]; simpl.
  - apply flags_kept_same_clients. reflexivity.
  - intros id c' H. simpl in H. apply lookup_delete_Some in H as [_ H]. apply (IH id c' H).
Qed.

Lemma flags_kept_set_topics b m : flags_kept b (Broker.set_topics b m).
Proof. apply flags_kept_same_clients. reflexivity. Qed.

Lemma flags_kept_set_tasks b l : flags_kept b (Broker.set_tasks b l).
Proof. apply flags_kept_same_clients. reflexivity. Qed.

Lemma flags_kept_set_tasks_to_retry b l : flags_kept b (Broker.set_tasks_to_retry b l).
Proof. apply flags_kept_same_clients. reflexivity. Qed.

Lemma flags_kept_set_topics_of_client b n c ts :
  Broker.clients b !! n = Some c ->
  flags_kept b (Broker.set_clients b (<[n := Client.set_topics c ts]> (Broker.clients b))).
Proof.
  intros Hc id c' H. simpl in H. destruct (String.eqb_spec n id) as [<-|Hne].
  - rewrite lookup_insert_eq in H. injection H as <-. exists c. split; [exact Hc | reflexivity].
  - rewrite lookup_insert_ne in H by exact Hne. eauto.
Qed.

Lemma flags_kept_sweep_clients b rt :
  flags_kept b (Broker.set_clients b (sweep_clients rt (Broker.clients b))).
Proof.
  unfold sweep_clients. intros id c' H. simpl in H.
  assert (Hd : forall ns, foldr delete (drop_subscription rt <$> Broker.clients b) ns !! id = Some c' ->
            (drop_subscription rt <$> Broker.clients b) !! id = Some c').
  { induction ns as [|n ns IH]; simpl; [auto|].
    intros Hl. apply lookup_delete_Some in Hl as [_ Hl]. auto. }
  apply Hd in H. rewrite lookup_fmap in H.
  destruct (Broker.clients b !! id) as [c|] eqn:Hc; [|discriminate H].
  injection H as <-. exists c. split; [reflexivity|].
  unfold drop_subscription. destruct (position _ _); reflexivity.
Qed.

Create HintDb flags.
#[local] Hint Resolve flags_kept_refl flags_kept_set_topics flags_kept_set_tasks
  flags_kept_set_tasks_to_retry flags_kept_delete flags_kept_sweep_clients : flags.

#[local] Hint Extern 2 (keeps_at _ _ _) => apply ka_of_keeps : flags.

Ltac flags_solve :=
  repeat (ka_step flags_kept_refl flags_kept_trans);
  eauto with flags.

Lemma flags_send3 deliver identity payload : keeps flags_kept (send3 deliver identity payload).
Proof. intros w. unfold send3. flags_solve. Qed.
#[local] Hint Resolve flags_send3 : flags.

Lemma flags_get_next_worker_name topic_name : keeps flags_kept (get_next_worker_name topic_name).
Proof. intros w. unfold get_next_worker_name. flags_solve. Qed.
#[local] Hint Resolve flags_get_next_worker_name : flags.

Lemma flags_remove_worker worker_name : keeps flags_kept (remove_worker worker_name).
Proof.
  intros w. unfold remove_worker. flags_solve.
  unfold remove_worker_from_topics.
  apply (keeps_for_each _ flags_kept_refl flags_kept_trans).
  intros x w'. flags_solve.
Qed.
#[local] Hint Resolve flags_remove_worker : flags.

Lemma flags_send_task deliver now task : keeps flags_kept (send_task deliver now task).
Proof. intros w. unfold send_task. flags_solve. Qed.
#[local] Hint Resolve flags_send_task : flags.

Lemma flags_dispatch deliver now fuel task : keeps flags_kept (dispatch deliver now fuel task).
Proof.
  revert task. induction fuel as [|fuel IH]; intros task w; simpl.
  - intros a w' H. discriminate H.
  - flags_solve.
Qed.
#[local] Hint Resolve flags_dispatch : flags.

Lemma flags_send_task_and_retry deliver now task :
  keeps flags_kept (send_task_and_retry deliver now task).
Proof. intros w. unfold send_task_and_retry. apply flags_dispatch. Qed.
#[local] Hint Resolve flags_send_task_and_retry : flags.

Lemma flags_respond_to deliver topic payload name :
  keeps flags_kept (respond_to deliver topic payload name).
Proof.
  intros w. unfold respond_to. flags_solve.
  apply flags_kept_set_topics_of_client. assumption.
Qed.
#[local] Hint Resolve flags_respond_to : flags.

Lemma flags_send_response deliver topic_name payload :
  keeps flags_kept (send_response deliver topic_name payload).
Proof.
  intros w. unfold send_response. flags_solve.
  apply (keeps_for_each _ flags_kept_refl flags_kept_trans). eauto with flags.
Qed.
#[local] Hint Resolve flags_send_response : flags.

Lemma flags_retry_tasks deliver now : keeps flags_kept (retry_tasks deliver now).
Proof.
  intros w. unfold retry_tasks. flags_solve.
  apply (keeps_for_each _ flags_kept_refl flags_kept_trans). eauto with flags.
Qed.
#[local] Hint Resolve flags_retry_tasks : flags.

Lemma flags_remove_timeout_tasks now : keeps flags_kept (remove_timeout_tasks now).
Proof.
  intros w. unfold remove_timeout_tasks. flags_solve.
  apply (keeps_fold_m _ flags_kept_refl flags_kept_trans).
  intros kept task w'. unfold sweep_task. flags_solve.
Qed.
#[local] Hint Resolve flags_remove_timeout_tasks : flags.

Lemma flags_print_debug : keeps flags_kept print_debug.
Proof. intros w. unfold print_debug. flags_solve. Qed.
#[local] Hint Resolve flags_print_debug : flags.

(** Rows present before and after keep their worker flag (rows may have
    been created in between, not deleted and re-created). *)
Definition flags_fixed (b b' : Broker.t) : Prop :=
  forall id c c', Broker.clients b !! id = Some c -> Broker.clients b' !! id = Some c' ->
    Client.is_worker c' = Client.is_worker c.

Lemma flags_fixed_of_kept b b' : flags_kept b b' -> flags_fixed b b'.
Proof.
  intros H id c c' Hc Hc'. destruct (H id c' Hc') as (c0 & H0 & E). congruence.
Qed.

Lemma flags_fixed_kept b1 b2 b3 : flags_fixed b1 b2 -> flags_kept b2 b3 -> flags_fixed b1 b3.
Proof.
  intros H12 H23 id c1 c3 H1 H3. destruct (H23 id c3 H3) as (c2 & H2 & E).
  rewrite <-E. exact (H12 id c1 c2 H1 H2).
Qed.

Lemma flags_add_client is_worker identity response_topic w u w' :
  add_client is_worker identity response_topic w = Done u w' ->
  flags_fixed (broker w) (broker w').
Proof.
  unfold add_client, modify. intros H. injection H as _ <-. simpl.
  intros id c c' Hc Hc'. simpl in Hc'.
  destruct (String.eqb_spec identity id) as [<-|Hne].
  - rewrite lookup_insert_eq in Hc'. injection Hc' as <-. rewrite Hc. reflexivity.
  - rewrite lookup_insert_ne in Hc' by exact Hne. congruence.
Qed.

Lemma keeps_at_flags_fixed {A} (m : M A) w a w' :
  keeps_at flags_kept w m -> m w = Done a w' -> flags_fixed (broker w) (broker w').
Proof. intros Hk Hm. apply flags_fixed_of_kept. exact (Hk a w' Hm). Qed.

Lemma flags_step deliver now (m : Msg) w u w' :
  step deliver now m w = Done u w' -> flags_fixed (broker w) (broker w').
Proof.
  unfold step. unfold mbind at 1, M_bind at 1, bind at 1.
  intros H.
  destruct (_ w) as [u1 w1|f] eqn:H1 in H; [|discriminate H].
  apply (flags_fixed_kept _ (broker w1)).
  2:{ cbv beta in H.
      assert (Hk : keeps_at flags_kept w1 (remove_timeout_tasks now ≫= fun _ =>
                     if negb (String.eqb (topic m) "@@PING") then print_debug else ret tt))
        by flags_solve.
      exact (Hk u w' H). }
  destruct (String.eqb (topic m) "@@PING").
  - revert H1. apply keeps_at_flags_fixed.
    flags_solve.
  - destruct (String.eqb (topic m) "@@REGISTER");
      [|destruct (String.eqb (response_topic m) "")].
    + revert H1. unfold mbind, M_bind, bind.
      destruct (add_client _ _ _ w) as [u2 w2|f] eqn:H2; [|discriminate].
      intros H1. eapply flags_fixed_kept; [apply (flags_add_client _ _ _ _ _ _ H2)|].
      exact (flags_retry_tasks deliver now w2 u1 w1 H1).
    + revert H1. apply keeps_at_flags_fixed. eauto with flags.
    + revert H1. unfold mbind, M_bind, bind.
      destruct (add_client _ _ _ w) as [u2 w2|f] eqn:H2; [|discriminate].
      intros H1. eapply flags_fixed_kept; [apply (flags_add_client _ _ _ _ _ _ H2)|].
      exact (flags_send_task_and_retry deliver now _ w2 u1 w1 H1).
Qed.

(** C10: the worker flag of a client row is set when the row is created and
    no message handled by the event loop changes it.  So an identity that
    first asks for a task and then sends [@@REGISTER] is on the worker list
    of [T] but keeps [is_worker = false], and the debug line counts it as a
    client ([0 workers; 1 clients]). *)
Theorem worker_flag_never_changes :
  (forall deliver now (m : Msg) (w w' : World) (id : string) (c c' : Client.t),
     Broker.clients (broker w) !! id = Some c ->
     step deliver now m w = Done tt w' ->
     Broker.clients (broker w') !! id = Some c' ->
     Client.is_worker c' = Client.is_worker c)
  /\ match run all_reachable 0 scenario_client_then_worker init with
     | Done _ w =>
         Broker.clients (broker w) !! "x" = Some (Client.mk "x" false ["R"; "T"])
         /\ Topic.workers <$> (Broker.topics (broker w) !! "T") = Some ["x"]
         /\ last (out w) = Some (Debug 0 1 2 0 1)
     | Abort _ => False
     end.
Proof.
  split.
  - intros deliver now m w w' id c c' Hc Hstep Hc'.
    exact (flags_step deliver now m w tt w' Hstep id c c' Hc Hc').
  - vm_compute. split; [reflexivity | split; reflexivity].
Qed.

(** The state after [x]'s request, before its registration. *)
Definition client_x_only : World :=
  world_of (run all_reachable 0 [mkMsg "x" "T0" "R" "p"] init).
Definition register_x : Msg := mkMsg "x" "@@REGISTER" "T" "".

Lemma worker_flag_never_changes_witness :
  Broker.clients (broker client_x_only) !! "x" = Some (Client.mk "x" false ["R"])
  /\ step all_reachable 0 register_x client_x_only = Done tt client_then_worker
  /\ Broker.clients (broker client_then_worker) !! "x" = Some (Client.mk "x" false ["R"; "T"])
  /\ Client.is_worker (Client.mk "x" false ["R"; "T"]) = Client.is_worker (Client.mk "x" false ["R"]).
Proof.
  assert (H1 : Broker.clients (broker client_x_only) !! "x" = Some (Client.mk "x" false ["R"]))
    by (vm_compute; reflexivity).
  assert (H2 : step all_reachable 0 register_x client_x_only = Done tt client_then_worker)
    by (vm_compute; reflexivity).
  assert (H3 : Broker.clients (broker client_then_worker) !! "x"
               = Some (Client.mk "x" false ["R"; "T"])) by (vm_compute; reflexivity).
  split; [exact H1|]. split; [exact H2|]. split; [exact H3|].
  exact (proj1 worker_flag_never_changes all_reachable 0 register_x _ _ "x" _ _ H1 H2 H3).
Defined.

(** ** Termination of the dispatch loop *)

Definition same_clients (b b' : Broker.t) : Prop := Broker.clients b' = Broker.clients b.

Lemma same_clients_refl b : same_clients b b.
Proof. reflexivity. Qed.

Lemma same_clients_trans b1 b2 b3 :
  same_clients b1 b2 -> same_clients b2 b3 -> same_clients b1 b3.
Proof. unfold same_clients. congruence. Qed.

Create HintDb same_clients.
#[local] Hint Extern 1 (same_clients _ _) => reflexivity : same_clients.
#[local] Hint Extern 2 (keeps_at _ _ _) => apply ka_of_keeps : same_clients.

Ltac same_clients_solve :=
  repeat (ka_step same_clients_refl same_clients_trans);
  eauto with same_clients.

Lemma same_clients_send3 deliver identity payload :
  keeps same_clients (send3 deliver identity payload).
Proof. intros w. unfold send3. same_clients_solve. Qed.

Lemma same_clients_get_next_worker_name topic_name :
  keeps same_clients (get_next_worker_name topic_name).
Proof. intros w. unfold get_next_worker_name. same_clients_solve. Qed.

Lemma same_clients_remove_worker_from_topics worker :
  keeps same_clients (remove_worker_from_topics worker).
Proof.
  unfold remove_worker_from_topics.
  apply (keeps_for_each _ same_clients_refl same_clients_trans).
  intros x w. same_clients_solve.
Qed.

(** A successful eviction deletes one existing client row. *)
Lemma remove_worker_size worker_name w u w' :
  remove_worker worker_name w = Done u w' ->
  size (Broker.clients (broker w')) < size (Broker.clients (broker w)).
Proof.
  unfold remove_worker, mbind, M_bind, bind at 1, gets.
  destruct (Broker.clients (broker w) !! worker_name) as [worker|] eqn:Hw;
    [|discriminate].
  unfold bind. destruct (remove_worker_from_topics worker w) as [u1 w1|f] eqn:H1;
    [|discriminate].
  pose proof (same_clients_remove_worker_from_topics worker w u1 w1 H1) as E.
  unfold same_clients in E.
  unfold upd_clients, modify. intros H. injection H as _ <-. simpl.
  rewrite E, map_size_delete_Some by eauto.
  assert (size (Broker.clients (broker w)) <> 0).
  { apply map_size_ne_0_lookup_2 with worker_name. eauto. }
  lia.
Qed.

(** A round of [send_task] either ends the loop (no worker, or the task was
    sent) or evicted a client row. *)
Lemma send_task_progress deliver now task w r t' w' :
  send_task deliver now task w = Done (r, t') w' ->
  r = None \/ Task.sent t' = true
  \/ size (Broker.clients (broker w')) < size (Broker.clients (broker w)).
Proof.
  unfold send_task, mbind, M_bind, bind at 1.
  destruct (get_next_worker_name _ w) as [wn w1|f] eqn:H1; [|discriminate].
  pose proof (same_clients_get_next_worker_name _ w wn w1 H1) as E1.
  unfold same_clients in E1.
  destruct wn as [worker_name|].
  - unfold bind. destruct (send3 deliver worker_name _ w1) as [ok w2|f] eqn:H2;
      [|discriminate].
    pose proof (same_clients_send3 _ _ _ w1 ok w2 H2) as E2. unfold same_clients in E2.
    destruct ok.
    + unfold ret. intros H. injection H as <- <- <-. right. left. reflexivity.
    + destruct (remove_worker worker_name w2) as [u3 w3|f] eqn:H3; [|discriminate].
      unfold ret. intros H. injection H as <- <- <-. right. right.
      pose proof (remove_worker_size _ _ _ _ H3). rewrite E2, E1 in *. lia.
  - unfold ret. intros H. injection H as <- _ _. left. reflexivity.
Qed.

(** Only [dispatch] can run out of fuel; everything else aborts by panic. *)
Definition panics_only {A} (m : M A) : Prop := forall w f, m w = Abort f -> f = Panic.

Lemma po_ret {A} (a : A) : panics_only (ret a).
Proof. intros w f H. discriminate H. Qed.

Lemma po_panic {A} : panics_only (@panic A).
Proof. intros w f H. injection H as <-. reflexivity. Qed.

Lemma po_gets {A} (g : Broker.t -> A) : panics_only (gets g).
Proof. intros w f H. discriminate H. Qed.

Lemma po_modify g : panics_only (modify g).
Proof. intros w f H. discriminate H. Qed.

Lemma po_emit e : panics_only (emit e).
Proof. intros w f H. discriminate H. Qed.

Lemma po_bind {A B} (m : M A) (k : A -> M B) :
  panics_only m -> (forall a, panics_only (k a)) -> panics_only (m ≫= k).
Proof.
  intros Hm Hk w f H. unfold mbind, M_bind, bind in H.
  destruct (m w) as [a w1|f'] eqn:Hmw.
  - exact (Hk a w1 f H).
  - injection H as <-. exact (Hm w f' Hmw).
Qed.

Lemma po_for_each {A} (g : A -> M unit) l :
  (forall x, panics_only (g x)) -> panics_only (for_each g l).
Proof.
  intros Hg. induction l as [|x l IH]; simpl; [apply po_ret|].
  apply po_bind; [apply Hg | intros; exact IH].
Qed.

Ltac po_solve :=
  repeat match goal with
  | |- panics_only (_ ≫= _) => apply po_bind; [|intros ?]
  | |- panics_only (ret _) => apply po_ret
  | |- panics_only panic => apply po_panic
  | |- panics_only (gets _) => apply po_gets
  | |- panics_only (modify _) => apply po_modify
  | |- panics_only (upd_clients _) => apply po_modify
  | |- panics_only (upd_topics _) => apply po_modify
  | |- panics_only (emit _) => apply po_emit
  | |- panics_only (for_each _ _) => apply po_for_each; intros ?
  | |- panics_only (match ?x with _ => _ end) => destruct x
  | |- panics_only (if ?x then _ else _) => destruct x
  | |- panics_only (send3 _ _ _) => unfold send3
  | |- panics_only (get_next_worker_name _) => unfold get_next_worker_name
  | |- panics_only (remove_worker _) => unfold remove_worker
  | |- panics_only (remove_worker_from_topics _) => unfold remove_worker_from_topics
  end.

Lemma po_send_task deliver now task : panics_only (send_task deliver now task).
Proof. unfold send_task. po_solve. Qed.

(** The dispatch loop never needs more than [size clients + 1] rounds, so
    the bound used by [send_task_and_retry] is never reached: the Rust
    [loop] terminates, either normally or by a panic. *)
Lemma dispatch_terminates deliver now fuel task w :
  size (Broker.clients (broker w)) < fuel ->
  dispatch deliver now fuel task w <> Abort OutOfFuel.
Proof.
  revert task w. induction fuel as [|fuel IH]; intros task w Hlt; [lia|].
  simpl. unfold mbind at 1, M_bind at 1, bind at 1.
  destruct (send_task deliver now task w) as [[r t'] w1|f] eqn:H1.
  - destruct r as [x|].
    + destruct (Task.sent t') eqn:Hs; [unfold modify; discriminate|].
      destruct (send_task_progress _ _ _ _ _ _ _ H1) as [Hr|[Hs'|Hsz]];
        [discriminate | congruence |].
      apply IH. lia.
    + unfold mbind, M_bind, bind, emit, modify. discriminate.
  - intros Hf. injection Hf as ->.
    pose proof (po_send_task deliver now task w OutOfFuel H1). discriminate.
Qed.

Lemma send_task_and_retry_terminates deliver now task w :
  send_task_and_retry deliver now task w <> Abort OutOfFuel.
Proof. unfold send_task_and_retry. apply dispatch_terminates. lia. Qed.

(** ** Draining the retry queue *)

(** What identifies a task through its re-dispatches. *)
Definition task_key (t : Task.t) : string * string * string :=
  (Task.worker_topic t, Task.response_topic t, Task.payload t).

Definition same_tasks (b b' : Broker.t) : Prop :=
  Broker.tasks b' = Broker.tasks b /\ Broker.tasks_to_retry b' = Broker.tasks_to_retry b.

Lemma same_tasks_refl b : same_tasks b b.
Proof. split; reflexivity. Qed.

Lemma same_tasks_trans b1 b2 b3 : same_tasks b1 b2 -> same_tasks b2 b3 -> same_tasks b1 b3.
Proof. unfold same_tasks. intuition congruence. Qed.

Create HintDb same_tasks.
#[local] Hint Extern 1 (same_tasks _ _) => split; reflexivity : same_tasks.
#[local] Hint Extern 2 (keeps_at _ _ _) => apply ka_of_keeps : same_tasks.

Ltac same_tasks_solve :=
  repeat (ka_step same_tasks_refl same_tasks_trans);
  eauto with same_tasks.

Lemma same_tasks_send3 deliver identity payload :
  keeps same_tasks (send3 deliver identity payload).
Proof. intros w. unfold send3. same_tasks_solve. Qed.
#[local] Hint Resolve same_tasks_send3 : same_tasks.

Lemma same_tasks_get_next_worker_name topic_name :
  keeps same_tasks (get_next_worker_name topic_name).
Proof. intros w. unfold get_next_worker_name. same_tasks_solve. Qed.
#[local] Hint Resolve same_tasks_get_next_worker_name : same_tasks.

Lemma same_tasks_remove_worker worker_name : keeps same_tasks (remove_worker worker_name).
Proof.
  intros w. unfold remove_worker. same_tasks_solve.
  unfold remove_worker_from_topics.
  apply (keeps_for_each _ same_tasks_refl same_tasks_trans).
  intros x w'. same_tasks_solve.
Qed.
#[local] Hint Resolve same_tasks_remove_worker : same_tasks.

Lemma send_task_result deliver now task w r t' w' :
  send_task deliver now task w = Done (r, t') w' ->
  task_key t' = task_key task /\ Task.date t' = now /\ same_tasks (broker w) (broker w').
Proof.
  intros H.
  assert (Hk : keeps_at same_tasks w (send_task deliver now task))
    by (unfold send_task; same_tasks_solve).
  split; [|split; [|exact (Hk _ _ H)]]; revert H;
  unfold send_task, mbind, M_bind, bind;
  destruct (get_next_worker_name _ w) as [[x|] w1|f]; try discriminate;
  try (destruct (send3 _ _ _ w1) as [[] w2|f]; try discriminate);
  try (destruct (remove_worker x w2) as [u3 w3|f]; try discriminate);
  unfold ret; intros H; injection H as _ <- _; reflexivity.
Qed.

Lemma dispatch_outcome deliver now fuel task w u w' :
  dispatch deliver now fuel task w = Done u w' ->
  exists t', task_key t' = task_key task /\ Task.date t' = now /\
    ((Broker.tasks (broker w') = Broker.tasks (broker w) ++ [t']
      /\ Broker.tasks_to_retry (broker w') = Broker.tasks_to_retry (broker w))
     \/ (Broker.tasks (broker w') = Broker.tasks (broker w)
      /\ Broker.tasks_to_retry (broker w') = Broker.tasks_to_retry (broker w) ++ [t'])).
Proof.
  revert task w. induction fuel as [|fuel IH]; intros task w H; [discriminate H|].
  simpl in H. unfold mbind at 1, M_bind at 1, bind at 1 in H.
  destruct (send_task deliver now task w) as [[r t1] w1|f] eqn:H1; [|discriminate H].
  destruct (send_task_result _ _ _ _ _ _ _ H1) as (Hk1 & Hd1 & Hs1 & Hr1).
  destruct r as [x|].
  - destruct (Task.sent t1).
    + unfold modify in H. injection H as _ <-. simpl.
      exists t1. split; [exact Hk1|]. split; [exact Hd1|]. left. rewrite Hs1, Hr1. auto.
    + destruct (IH t1 w1 H) as (t' & Hk & Hd & Ho). exists t'.
      split; [congruence|]. split; [exact Hd|]. rewrite Hs1, Hr1 in Ho. exact Ho.
  - unfold mbind, M_bind, bind, emit, modify in H. injection H as _ <-. simpl.
    exists t1. split; [exact Hk1|]. split; [exact Hd1|]. right. rewrite Hs1, Hr1. auto.
Qed.

Lemma for_each_dispatch_outcome deliver now (q : list Task.t) w u w' :
  for_each (send_task_and_retry deliver now) q w = Done u w' ->
  exists sent parked,
    Broker.tasks (broker w') = Broker.tasks (broker w) ++ sent
    /\ Broker.tasks_to_retry (broker w') = Broker.tasks_to_retry (broker w) ++ parked
    /\ Permutation (map task_key (sent ++ parked)) (map task_key q)
    /\ (forall t, t ∈ sent ++ parked -> Task.date t = now).
Proof.
  revert w. induction q as [|task q IH]; intros w H; simpl in H.
  - injection H as _ <-. exists [], []. rewrite !app_nil_r. split; [done|]. split; [done|].
    split; [constructor|]. intros t Ht. by apply not_elem_of_nil in Ht.
  - unfold mbind, M_bind, bind in H.
    destruct (send_task_and_retry deliver now task w) as [u1 w1|f] eqn:H1; [|discriminate H].
    destruct (dispatch_outcome _ _ _ _ _ _ _ H1) as (t' & Hk & Hd & Ho).
    destruct (IH w1 H) as (sent & parked & Hs & Hp & Hperm & Hdate).
    destruct Ho as [[Hs1 Hp1]|[Hs1 Hp1]].
    + exists (t' :: sent), parked. rewrite Hs, Hp, Hs1, Hp1, <-!app_assoc.
      split; [done|]. split; [done|]. split.
      * simpl. rewrite Hk. by constructor.
      * intros t Ht. apply elem_of_cons in Ht as [->|Ht]; auto.
    + exists sent, (t' :: parked). rewrite Hs, Hp, Hs1, Hp1, <-!app_assoc.
      split; [done|]. split; [done|]. split.
      * rewrite map_app. simpl. rewrite <-Permutation_middle, Hk. constructor.
        rewrite <-map_app. exact Hperm.
      * intros t Ht. apply elem_of_app in Ht as [Ht|Ht].
        -- apply Hdate. apply elem_of_app. auto.
        -- apply elem_of_cons in Ht as [->|Ht]; [exact Hd|].
           apply Hdate. apply elem_of_app. auto.
Qed.

Lemma add_client_tasks is_worker identity response_topic w u w' :
  add_client is_worker identity response_topic w = Done u w' ->
  same_tasks (broker w) (broker w').
Proof. unfold add_client, modify. intros H. injection H as _ <-. split; reflexivity. Qed.

(** C7: the [@@REGISTER] branch of the event loop (lines 331-335) takes
    every task parked in the retry queue through the dispatcher: when it
    completes, each parked task has been stamped at the current time and is
    either appended to the in-flight table or back in the retry queue, and
    the tasks that were in flight before are untouched. *)
Theorem register_retries_parked_tasks deliver now (w w' : World)
    (identity response_topic : string) :
  (add_client true identity response_topic ;; retry_tasks deliver now) w = Done tt w' ->
  exists sent,
    Broker.tasks (broker w') = Broker.tasks (broker w) ++ sent
    /\ Permutation (map task_key (sent ++ Broker.tasks_to_retry (broker w')))
                   (map task_key (Broker.tasks_to_retry (broker w)))
    /\ (forall t, t ∈ sent ++ Broker.tasks_to_retry (broker w') -> Task.date t = now).
Proof.
  unfold mbind at 1, M_bind at 1, bind at 1.
  destruct (add_client true identity response_topic w) as [u1 w1|f] eqn:H1; [|discriminate].
  destruct (add_client_tasks _ _ _ _ _ _ H1) as [Hs1 Hr1].
  unfold retry_tasks, mbind, M_bind, bind at 1, gets.
  unfold bind at 1, modify. intros H.
  destruct (for_each_dispatch_outcome _ _ _ _ _ _ H) as (sent & parked & Hs & Hp & Hperm & Hd).
  simpl in Hs, Hp. exists sent. rewrite Hs, Hp, Hs1. rewrite Hr1 in Hperm.
  split; [reflexivity|]. split; [exact Hperm | exact Hd].
Qed.

(** A worker [w] registers on [T0], where [x]'s task is parked. *)
Definition register_w_on_T0 : M unit :=
  add_client true "w" "T0" ;; retry_tasks all_reachable 0.

Lemma register_retries_parked_tasks_witness :
  register_w_on_T0 client_x_only = Done tt (world_of (register_w_on_T0 client_x_only))
  /\ exists sent,
    Broker.tasks (broker (world_of (register_w_on_T0 client_x_only)))
      = Broker.tasks (broker client_x_only) ++ sent
    /\ Permutation (map task_key (sent ++ Broker.tasks_to_retry
                                   (broker (world_of (register_w_on_T0 client_x_only)))))
                   (map task_key (Broker.tasks_to_retry (broker client_x_only)))
    /\ (forall t, t ∈ sent ++ Broker.tasks_to_retry
                     (broker (world_of (register_w_on_T0 client_x_only))) -> Task.date t = 0).
Proof.
  assert (H : register_w_on_T0 client_x_only
              = Done tt (world_of (register_w_on_T0 client_x_only)))
    by (vm_compute; reflexivity).
  split; [exact H|].
  exact (register_retries_parked_tasks all_reachable 0 _ _ "w" "T0" H).
Defined.

(** ** Fan-out of a worker reply *)

(** Number of occurrences of [x] in [l]. *)
Definition occurrences (x : string) (l : list string) : nat :=
  length (List.filter (String.eqb x) l).

(** Removal of the first occurrence of [x]. *)
Fixpoint remove_one (x : string) (l : list string) : list string :=
  match l with
  | [] => []
  | y :: l' => if String.eqb x y then l' else y :: remove_one x l'
  end.

(** The row of a client after [k] deliveries on topic [rt]: [k] entries
    [rt] are removed from its list, and the row is deleted when the list
    becomes empty. *)
Definition served (k : nat) (rt : string) (oc : option Client.t) : option Client.t :=
  match oc with
  | None => None
  | Some c =>
      if Nat.eqb k 0 then Some c
      else
        let ts := Nat.iter k (remove_one rt) (Client.topics c) in
        if is_empty ts then None else Some (Client.set_topics c ts)
  end.

Definition keys_match (m : gmap string Client.t) : Prop :=
  forall c cl, m !! c = Some cl -> Client.name cl = c.

Lemma occurrences_cons x y l :
  occurrences x (y :: l) = (if String.eqb x y then 1 else 0) + occurrences x l.
Proof. unfold occurrences. simpl. destruct (String.eqb x y); reflexivity. Qed.

Lemma occurrences_remove_one x l :
  occurrences x (remove_one x l) = occurrences x l - 1.
Proof.
  induction l as [|y l IH]; [reflexivity|]. simpl.
  destruct (String.eqb_spec x y) as [<-|Hne].
  - rewrite occurrences_cons, String.eqb_refl. lia.
  - rewrite !occurrences_cons. apply String.eqb_neq in Hne. rewrite Hne. exact IH.
Qed.

Lemma occurrences_iter_remove_one x k l :
  occurrences x (Nat.iter k (remove_one x) l) = occurrences x l - k.
Proof.
  induction k as [|k IH]; simpl; [lia|]. rewrite occurrences_remove_one, IH. lia.
Qed.

Lemma position_vec_remove x l :
  0 < occurrences x l ->
  exists i, position (String.eqb x) l = Some i /\ vec_remove i l = Some (remove_one x l).
Proof.
  induction l as [|y l IH]; intros Hocc; [unfold occurrences in Hocc; simpl in Hocc; lia|].
  simpl. rewrite occurrences_cons in Hocc.
  destruct (String.eqb x y).
  - exists 0. split; reflexivity.
  - destruct (IH Hocc) as (i & Hp & Hr). exists (S i). simpl. rewrite Hp, Hr. split; reflexivity.
Qed.

Lemma is_empty_occurrences x (l : list string) : is_empty l = true -> occurrences x l = 0.
Proof. destruct l; [reflexivity | discriminate]. Qed.

Lemma served_0 rt oc : served 0 rt oc = oc.
Proof. destruct oc; reflexivity. Qed.

Lemma served_add rt m k c :
  m + k <= occurrences rt (Client.topics c) ->
  served k rt (served m rt (Some c)) = served (m + k) rt (Some c).
Proof.
  intros Hle. unfold served at 2.
  destruct (Nat.eqb_spec m 0) as [->|Hm]; [reflexivity|].
  cbv zeta.
  destruct (is_empty (Nat.iter m (remove_one rt) (Client.topics c))) eqn:He.
  - pose proof (is_empty_occurrences rt _ He) as Ho.
    rewrite occurrences_iter_remove_one in Ho.
    assert (k = 0) as -> by lia. rewrite Nat.add_0_r. unfold served.
    destruct (Nat.eqb_spec m 0) as [|_]; [lia|]. rewrite He. reflexivity.
  - unfold served. destruct (Nat.eqb_spec k 0) as [->|Hk].
    + rewrite Nat.add_0_r. destruct (Nat.eqb_spec m 0); [lia|]. rewrite He. reflexivity.
    + destruct (Nat.eqb_spec (m + k) 0); [lia|]. cbn [Client.topics Client.set_topics].
      rewrite Nat.add_comm, Nat.iter_add. reflexivity.
Qed.

Lemma occurrences_single c a : occurrences c [a] = if String.eqb c a then 1 else 0.
Proof. unfold occurrences. simpl. destruct (String.eqb c a); reflexivity. Qed.

Lemma send3_run deliver identity payload w :
  send3 deliver identity payload w
  = Done (deliver identity)
      (mkWorld (broker w)
         (out w ++ (if deliver identity then [Sent identity payload] else []))).
Proof.
  unfold send3, mbind, M_bind, bind, emit, ret.
  destruct (deliver identity); [reflexivity|]. destruct w. simpl. by rewrite app_nil_r.
Qed.

(** One delivery of [send_response]. *)
Lemma respond_to_step deliver tp payload a w :
  keys_match (Broker.clients (broker w)) ->
  (forall cl, Broker.clients (broker w) !! a = Some cl ->
     0 < occurrences (Topic.name tp) (Client.topics cl)) ->
  exists w1,
    respond_to deliver tp payload a w = Done tt w1
    /\ out w1 = out w ++ (if deliver a then [Sent a payload] else [])
    /\ (forall c, Broker.clients (broker w1) !! c
                  = served (occurrences c [a]) (Topic.name tp) (Broker.clients (broker w) !! c))
    /\ Broker.topics (broker w1) = Broker.topics (broker w)
    /\ Broker.tasks (broker w1) = Broker.tasks (broker w).
Proof.
  intros Hk Hpos.
  unfold respond_to, mbind at 1, M_bind at 1, bind at 1. rewrite send3_run.
  unfold mbind, M_bind, bind, gets. cbn [broker out].
  destruct (Broker.clients (broker w) !! a) as [cl|] eqn:Ha.
  - destruct (position_vec_remove (Topic.name tp) (Client.topics cl) (Hpos cl eq_refl))
      as (i & Hp & Hr).
    rewrite Hp, Hr. unfold upd_clients, modify. cbn [broker out Client.name Client.set_topics].
    rewrite (Hk a cl Ha).
    destruct (is_empty (remove_one (Topic.name tp) (Client.topics cl))) eqn:He.
    + eexists. split; [reflexivity|]. split; [reflexivity|]. split; [|split; reflexivity].
      intros c. rewrite occurrences_single. cbn [broker Broker.clients Broker.set_clients].
      destruct (String.eqb_spec c a) as [->|Hne].
      * rewrite lookup_delete_eq, Ha. simpl. rewrite He. reflexivity.
      * rewrite lookup_delete_ne, lookup_insert_ne by congruence. by rewrite served_0.
    + eexists. split; [reflexivity|]. split; [reflexivity|]. split; [|split; reflexivity].
      intros c. rewrite occurrences_single. cbn [broker Broker.clients Broker.set_clients].
      destruct (String.eqb_spec c a) as [->|Hne].
      * rewrite lookup_insert_eq, Ha. simpl. rewrite He. reflexivity.
      * rewrite lookup_insert_ne by congruence. by rewrite served_0.
  - eexists. split; [reflexivity|]. split; [reflexivity|]. split; [|split; reflexivity].
    intros c. rewrite occurrences_single. cbn [broker Broker.clients Broker.set_clients].
    destruct (String.eqb_spec c a) as [->|Hne].
    + rewrite Ha. reflexivity.
    + by rewrite served_0.
Qed.

(** The whole delivery loop of [send_response]. *)
Lemma respond_to_loop deliver tp payload (L : list string) (w : World) :
  keys_match (Broker.clients (broker w)) ->
  (forall c cl, Broker.clients (broker w) !! c = Some cl ->
     occurrences c L <= occurrences (Topic.name tp) (Client.topics cl)) ->
  exists w',
    for_each (respond_to deliver tp payload) L w = Done tt w'
    /\ out w' = out w ++ map (fun n => Sent n payload) (List.filter deliver L)
    /\ (forall c, Broker.clients (broker w') !! c
                  = served (occurrences c L) (Topic.name tp) (Broker.clients (broker w) !! c))
    /\ Broker.topics (broker w') = Broker.topics (broker w)
    /\ Broker.tasks (broker w') = Broker.tasks (broker w).
Proof.
  revert w. induction L as [|a L IH]; intros w Hk Hc.
  - exists w. split; [reflexivity|]. split; [by rewrite app_nil_r|].
    split; [|split; reflexivity]. intros c. by rewrite served_0.
  - destruct (respond_to_step deliver tp payload a w Hk) as (w1 & H1 & Ho1 & Hc1 & Ht1 & Hs1).
    { intros cl Hcl. specialize (Hc a cl Hcl). rewrite occurrences_cons, String.eqb_refl in Hc.
      lia. }
    destruct (IH w1) as (w' & H' & Ho' & Hc' & Ht' & Hs').
    { intros c cl Hcl. rewrite Hc1 in Hcl.
      destruct (Broker.clients (broker w) !! c) as [cl0|] eqn:H0; [|discriminate Hcl].
      apply Hk in H0 as H0'. unfold served in Hcl.
      destruct (Nat.eqb _ 0); [congruence|].
      destruct (is_empty _); [discriminate|]. injection Hcl as <-. exact H0'. }
    { intros c cl Hcl. rewrite Hc1 in Hcl.
      destruct (Broker.clients (broker w) !! c) as [cl0|] eqn:H0; [|discriminate Hcl].
      specialize (Hc c cl0 H0). rewrite occurrences_cons in Hc.
      rewrite occurrences_single in Hcl. unfold served in Hcl.
      destruct (String.eqb c a).
      - simpl in Hcl. destruct (is_empty _); [discriminate|]. injection Hcl as <-.
        simpl. rewrite occurrences_remove_one. lia.
      - simpl in Hcl. injection Hcl as <-. lia. }
    exists w'. simpl. unfold mbind, M_bind, bind. rewrite H1. split; [exact H'|].
    split; [|split; [|split; congruence]].
    + rewrite Ho', Ho1, <-app_assoc. f_equal. destruct (deliver a); reflexivity.
    + intros c. rewrite Hc', Hc1.
      destruct (Broker.clients (broker w) !! c) as [cl0|] eqn:H0; [|reflexivity].
      rewrite served_add.
      * rewrite (occurrences_cons c a L), occurrences_single. reflexivity.
      * specialize (Hc c cl0 H0). rewrite occurrences_cons in Hc.
        rewrite occurrences_single. exact Hc.
Qed.

(** C3 (amended): when a worker reply arrives on a response-topic [R] whose
    row exists, the payload is sent to each identity of [R]'s client list
    once per occurrence in that list (so a client registered twice on [R]
    receives it twice; a failed send is dropped); each delivery removes one
    entry [R] from that client's subscription list, and a client whose list
    becomes empty is deleted.  [R]'s client list is then cleared, and the
    row is removed when it has no workers.  This is shown for states where
    [R]'s row carries the name [R], client rows are keyed by their names,
    and each client holds [R] in its subscription list at least as often
    as it is listed in [R]'s client list. *)
Theorem send_response_fan_out deliver (w : World) (name payload : string) (tp : Topic.t) :
  Broker.topics (broker w) !! name = Some tp ->
  Topic.name tp = name ->
  keys_match (Broker.clients (broker w)) ->
  (forall c cl, Broker.clients (broker w) !! c = Some cl ->
     occurrences c (Topic.clients tp) <= occurrences name (Client.topics cl)) ->
  exists w',
    send_response deliver name payload w = Done tt w'
    /\ out w' = out w ++ map (fun n => Sent n payload) (List.filter deliver (Topic.clients tp))
    /\ (forall c, Broker.clients (broker w') !! c
                  = served (occurrences c (Topic.clients tp)) name (Broker.clients (broker w) !! c))
    /\ Broker.topics (broker w') !! name
       = (if is_empty (Topic.workers tp) then None else Some (Topic.set_clients tp [])).
Proof.
  intros Htp Hname Hk Hc.
  destruct (respond_to_loop deliver tp payload (Topic.clients tp) w Hk)
    as (w1 & H1 & Ho1 & Hc1 & Ht1 & _).
  { rewrite Hname. exact Hc. }
  unfold send_response, mbind, M_bind, bind at 1, gets. rewrite Htp.
  unfold bind at 1. rewrite H1. unfold bind, gets. rewrite Ht1, Htp.
  unfold upd_topics, modify. cbn [broker out].
  destruct (is_empty (Topic.workers tp)) eqn:He.
  - eexists. split; [reflexivity|]. split; [exact Ho1|]. split.
    + intros c. simpl. rewrite Hc1, Hname. reflexivity.
    + simpl. apply lookup_delete_eq.
  - eexists. split; [reflexivity|]. split; [exact Ho1|]. split.
    + intros c. simpl. rewrite Hc1, Hname. reflexivity.
    + simpl. apply lookup_insert_eq.
Qed.

Definition double_subscription : World :=
  world_of (run all_reachable 0 scenario_double_subscription init).
Definition topic_R : Topic.t := Topic.mk "R" [] 0 ["c"; "c"].

Lemma send_response_fan_out_witness :
  Broker.topics (broker double_subscription) !! "R" = Some topic_R
  /\ Topic.name topic_R = "R"
  /\ keys_match (Broker.clients (broker double_subscription))
  /\ (forall c cl, Broker.clients (broker double_subscription) !! c = Some cl ->
        occurrences c (Topic.clients topic_R) <= occurrences "R" (Client.topics cl))
  /\ exists w',
    send_response all_reachable "R" "q" double_subscription = Done tt w'
    /\ out w' = out double_subscription
                ++ map (fun n => Sent n "q") (List.filter all_reachable (Topic.clients topic_R))
    /\ (forall c, Broker.clients (broker w') !! c
                  = served (occurrences c (Topic.clients topic_R)) "R"
                      (Broker.clients (broker double_subscription) !! c))
    /\ Broker.topics (broker w') !! "R"
       = (if is_empty (Topic.workers topic_R) then None else Some (Topic.set_clients topic_R [])).
Proof.
  assert (H1 : Broker.topics (broker double_subscription) !! "R" = Some topic_R)
    by (vm_compute; reflexivity).
  assert (H2 : Topic.name topic_R = "R") by reflexivity.
  assert (H3 : map_Forall (fun c cl => Client.name cl = c)
                 (Broker.clients (broker double_subscription)))
    by (apply (bool_decide_unpack _); vm_compute; reflexivity).
  assert (H4 : map_Forall (fun c cl => occurrences c (Topic.clients topic_R)
                                       <= occurrences "R" (Client.topics cl))
                 (Broker.clients (broker double_subscription)))
    by (apply (bool_decide_unpack _); vm_compute; reflexivity).
  split; [exact H1|]. split; [exact H2|]. split; [exact H3|]. split; [exact H4|].
  exact (send_response_fan_out all_reachable double_subscription "R" "q" topic_R H1 H2 H3 H4).
Defined.

(** ** The timeout sweep *)

(** A task is kept when less than [T] seconds have elapsed since its last
    dispatch. *)
Definition is_fresh (now T : nat) (t : Task.t) : bool := now - Task.date t <? T.

(** What dropping a task on [rt] does to one client row: one entry [rt] is
    removed, and the row is deleted when its list is then empty. *)
Definition cascade (rt : string) (cl : Client.t) : option Client.t :=
  let ts := remove_one rt (Client.topics cl) in
  if is_empty ts then None else Some (Client.set_topics cl ts).

Lemma position_None_remove_one x l :
  position (String.eqb x) l = None -> remove_one x l = l.
Proof.
  induction l as [|y l IH]; simpl; [reflexivity|].
  destruct (String.eqb x y); [discriminate|].
  destruct (position _ l); [discriminate|]. intros _. rewrite IH; reflexivity.
Qed.

Lemma position_vec_remove_Some x l i :
  position (String.eqb x) l = Some i -> vec_remove i l = Some (remove_one x l).
Proof.
  revert i. induction l as [|y l IH]; intros i; simpl; [discriminate|].
  destruct (String.eqb x y).
  - intros H. injection H as <-. reflexivity.
  - destruct (position _ l) as [j|]; [|discriminate]. intros H. injection H as <-.
    simpl. rewrite (IH j eq_refl). reflexivity.
Qed.

Lemma drop_subscription_remove_one rt cl :
  drop_subscription rt cl = Client.set_topics cl (remove_one rt (Client.topics cl)).
Proof.
  unfold drop_subscription.
  destruct (position (String.eqb rt) (Client.topics cl)) as [i|] eqn:Hp.
  - rewrite (position_vec_remove_Some _ _ _ Hp). reflexivity.
  - rewrite (position_None_remove_one _ _ Hp). destruct cl; reflexivity.
Qed.

Lemma lookup_foldr_delete (m : gmap string Client.t) (l : list string) c :
  foldr delete m l !! c = if bool_decide (c ∈ l) then None else m !! c.
Proof.
  induction l as [|x l IH]; cbn [foldr].
  - rewrite bool_decide_false by apply not_elem_of_nil. reflexivity.
  - destruct (String.eqb_spec x c) as [->|Hne].
    + rewrite lookup_delete_eq, bool_decide_true by apply list_elem_of_here. reflexivity.
    + rewrite lookup_delete_ne by exact Hne. rewrite IH.
      destruct (bool_decide_reflect (c ∈ l)) as [Hin|Hnin].
      * rewrite bool_decide_true; [reflexivity|]. by apply elem_of_cons; right.
      * rewrite bool_decide_false; [reflexivity|].
        intros Hc. apply elem_of_cons in Hc as [Hc|Hc]; congruence.
Qed.

Lemma sweep_clients_lookup rt (m : gmap string Client.t) c :
  keys_match m -> sweep_clients rt m !! c = m !! c ≫= cascade rt.
Proof.
  intros Hk. unfold sweep_clients. cbv zeta. rewrite lookup_foldr_delete, lookup_fmap.
  destruct (m !! c) as [cl|] eqn:Hc; cbn [fmap option_fmap option_map mbind option_bind].
  - rewrite drop_subscription_remove_one. unfold cascade. cbv zeta.
    set (names := map _ _).
    assert (Hiff : c ∈ names <-> is_empty (remove_one rt (Client.topics cl)) = true).
    { subst names. rewrite list_elem_of_In, in_map_iff. split.
      - intros ([k cl'] & Hname & Hin).
        apply filter_In in Hin as [Hin Hemp]. cbn [fst snd] in Hname, Hemp.
        apply list_elem_of_In, elem_of_map_to_list in Hin.
        rewrite lookup_fmap in Hin.
        destruct (m !! k) as [cl0|] eqn:Hk0; [|discriminate Hin].
        cbn in Hin. injection Hin as <-.
        rewrite drop_subscription_remove_one in Hname, Hemp.
        cbn in Hname, Hemp. pose proof (Hk _ _ Hk0) as Hn. rewrite Hn in Hname. subst k.
        rewrite Hc in Hk0. injection Hk0 as <-. exact Hemp.
      - intros Hemp. exists (c, drop_subscription rt cl). split.
        + rewrite drop_subscription_remove_one. cbn. exact (Hk _ _ Hc).
        + apply filter_In. split.
          * apply list_elem_of_In, elem_of_map_to_list. rewrite lookup_fmap, Hc. reflexivity.
          * rewrite drop_subscription_remove_one. exact Hemp. }
    destruct (is_empty (remove_one rt (Client.topics cl))) eqn:He.
    + rewrite bool_decide_true by (apply Hiff; reflexivity). reflexivity.
    + rewrite bool_decide_false by (rewrite Hiff; discriminate). reflexivity.
  - destruct (bool_decide _); reflexivity.
Qed.

Lemma sweep_clients_keys_match rt m : keys_match m -> keys_match (sweep_clients rt m).
Proof.
  intros Hk c cl' Hl. rewrite sweep_clients_lookup in Hl by exact Hk.
  destruct (m !! c) as [cl|] eqn:Hc; [|discriminate Hl]. cbn in Hl.
  unfold cascade in Hl. cbv zeta in Hl.
  destruct (is_empty _); [discriminate Hl|]. injection Hl as <-. exact (Hk _ _ Hc).
Qed.

(** The sweep loop, one task at a time: fresh tasks are accumulated, the
    others drop their response topic and cascade on the clients. *)
Lemma sweep_loop now (ts acc : list Task.t) (w : World) :
  (forall t, t ∈ ts -> Task.date t <= now) ->
  keys_match (Broker.clients (broker w)) ->
  let T := Broker.timeout_as_secs (broker w) in
  let dropped := List.filter (fun t => negb (is_fresh now T t)) ts in
  exists w',
    fold_m (sweep_task now) acc ts w = Done (acc ++ List.filter (is_fresh now T) ts) w' /\
    Broker.timeout_as_secs (broker w') = T /\
    Broker.tasks (broker w') = Broker.tasks (broker w) /\
    Broker.tasks_to_retry (broker w') = Broker.tasks_to_retry (broker w) /\
    out w' = out w /\
    Broker.topics (broker w') =
      foldl (fun m t => delete (Task.response_topic t) m) (Broker.topics (broker w)) dropped /\
    (forall c, Broker.clients (broker w') !! c =
      foldl (fun oc t => oc ≫= cascade (Task.response_topic t)) (Broker.clients (broker w) !! c) dropped).
Proof.
  revert acc w. induction ts as [|t ts IH]; intros acc w Hd Hk; cbv zeta.
  - exists w. rewrite app_nil_r. repeat split; reflexivity.
  - assert (Hdt : Task.date t <= now) by (apply Hd, list_elem_of_here).
    assert (Hds : forall t', t' ∈ ts -> Task.date t' <= now)
      by (intros t' Ht'; apply Hd, elem_of_cons; right; exact Ht').
    cbn [fold_m List.filter foldl]. unfold mbind, M_bind, bind, sweep_task at 1.
    unfold mbind, M_bind, bind, gets. cbn beta iota.
    rewrite (proj2 (Nat.ltb_ge _ _) Hdt).
    change (now - Task.date t <? Broker.timeout_as_secs (broker w))
      with (is_fresh now (Broker.timeout_as_secs (broker w)) t).
    destruct (is_fresh now (Broker.timeout_as_secs (broker w)) t) eqn:Hf; cbn [negb].
    + unfold mret, M_ret, ret.
      destruct (IH (acc ++ [t]) w Hds Hk) as (w' & Hrun & HT & Hts & Hr & Ho & Htp & Hcl).
      exists w'. rewrite <- app_assoc in Hrun. split; [exact Hrun|].
      repeat split; assumption.
    + unfold upd_topics, upd_clients, modify, mret, M_ret, ret. cbn beta iota.
      set (w1 := mkWorld _ _).
      assert (Hk1 : keys_match (Broker.clients (broker w1))).
      { apply sweep_clients_keys_match. exact Hk. }
      destruct (IH acc w1 Hds Hk1) as (w' & Hrun & HT & Hts & Hr & Ho & Htp & Hcl).
      exists w'. split; [exact Hrun|].
      split; [exact HT|]. split; [exact Hts|]. split; [exact Hr|]. split; [exact Ho|].
      split; [exact Htp|].
      intros c. rewrite Hcl. cbn. rewrite sweep_clients_lookup by exact Hk. reflexivity.
Qed.

(** C8 (amended): the timeout sweep, as the code has it.  Provided no task
    is dated in the future (else [elapsed().unwrap()] panics) and every
    client row is keyed by its name, [remove_timeout_tasks]
    - keeps, in order, exactly the tasks with [now - date < T];
    - for each dropped task, in table order, deletes its response-topic row;
    - and removes ONE entry of that topic from every client's list, deleting
      the client when its list becomes empty ([cascade]);
    the retry queue and the outputs are left unchanged. *)
Theorem remove_timeout_tasks_spec now (w : World) :
  Forall (fun t => Task.date t <= now) (Broker.tasks (broker w)) ->
  keys_match (Broker.clients (broker w)) ->
  let T := Broker.timeout_as_secs (broker w) in
  let dropped := List.filter (fun t => negb (is_fresh now T t)) (Broker.tasks (broker w)) in
  exists w',
    remove_timeout_tasks now w = Done tt w' /\
    Broker.tasks (broker w') = List.filter (is_fresh now T) (Broker.tasks (broker w)) /\
    Broker.topics (broker w') =
      foldl (fun m t => delete (Task.response_topic t) m) (Broker.topics (broker w)) dropped /\
    (forall c, Broker.clients (broker w') !! c =
      foldl (fun oc t => oc ≫= cascade (Task.response_topic t))
            (Broker.clients (broker w) !! c) dropped) /\
    Broker.tasks_to_retry (broker w') = Broker.tasks_to_retry (broker w) /\
    Broker.timeout_as_secs (broker w') = T /\
    out w' = out w.
Proof.
  intros Hd Hk. cbv zeta. rewrite Forall_forall in Hd.
  destruct (sweep_loop now (Broker.tasks (broker w)) [] w Hd Hk)
    as (w1 & Hrun & HT & Hts & Hr & Ho & Htp & Hcl).
  unfold remove_timeout_tasks, mbind, M_bind, bind, gets. cbn beta iota.
  rewrite Hrun. unfold modify.
  eexists. split; [reflexivity|]. cbn.
  split; [reflexivity|]. split; [exact Htp|]. split; [exact Hcl|].
  split; [exact Hr|]. split; [exact HT|]. exact Ho.
Qed.

Lemma remove_timeout_tasks_spec_witness :
  Forall (fun t => Task.date t <= 60) (Broker.tasks (broker double_subscription))
  /\ keys_match (Broker.clients (broker double_subscription))
  /\ exists w',
    remove_timeout_tasks 60 double_subscription = Done tt w' /\
    Broker.tasks (broker w') =
      List.filter (is_fresh 60 (Broker.timeout_as_secs (broker double_subscription)))
        (Broker.tasks (broker double_subscription)) /\
    Broker.topics (broker w') =
      foldl (fun m t => delete (Task.response_topic t) m)
        (Broker.topics (broker double_subscription))
        (List.filter (fun t => negb (is_fresh 60 (Broker.timeout_as_secs (broker double_subscription)) t))
           (Broker.tasks (broker double_subscription))) /\
    (forall c, Broker.clients (broker w') !! c =
      foldl (fun oc t => oc ≫= cascade (Task.response_topic t))
            (Broker.clients (broker double_subscription) !! c)
            (List.filter (fun t => negb (is_fresh 60 (Broker.timeout_as_secs (broker double_subscription)) t))
               (Broker.tasks (broker double_subscription)))) /\
    Broker.tasks_to_retry (broker w') = Broker.tasks_to_retry (broker double_subscription) /\
    Broker.timeout_as_secs (broker w') = Broker.timeout_as_secs (broker double_subscription) /\
    out w' = out double_subscription.
Proof.
  assert (H1 : Forall (fun t => Task.date t <= 60) (Broker.tasks (broker double_subscription)))
    by (apply (bool_decide_unpack _); vm_compute; reflexivity).
  assert (H2 : map_Forall (fun c cl => Client.name cl = c)
                 (Broker.clients (broker double_subscription)))
    by (apply (bool_decide_unpack _); vm_compute; reflexivity).
  split; [exact H1|]. split; [exact H2|].
  exact (remove_timeout_tasks_spec 60 double_subscription H1 H2).
Defined.

(** * Further properties of the broker *)

(** ** Round-robin selection *)

(** [k] successive calls of [get_next_worker_name] on one topic. *)
Fixpoint next_workers (k : nat) (name : string) : M (list (option string)) :=
  match k with
  | O => ret []
  | S k' => x ← get_next_worker_name name; xs ← next_workers k' name; ret (x :: xs)
  end.

Lemma with_cursor_same (w : World) name tp :
  Broker.topics (broker w) !! name = Some tp ->
  with_cursor w name tp (Topic.next_worker_index tp) = w.
Proof.
  intros H. destruct w as [[T cl tps ts rt] o]. unfold with_cursor. cbn in *.
  destruct tp. cbn. rewrite insert_id by exact H. reflexivity.
Qed.

Lemma with_cursor_twice (w : World) name tp i j :
  with_cursor (with_cursor w name tp i) name (Topic.set_next_worker_index tp i) j
  = with_cursor w name tp j.
Proof.
  destruct w as [[T cl tps ts rt] o]. unfold with_cursor. cbn.
  rewrite insert_insert_eq. destruct tp. reflexivity.
Qed.

Lemma with_cursor_lookup (w : World) name tp i :
  Broker.topics (broker (with_cursor w name tp i)) !! name
  = Some (Topic.set_next_worker_index tp i).
Proof. unfold with_cursor. cbn. apply lookup_insert_eq. Qed.

(** Starting from a cursor [c <= n] on a topic with [n > 0] workers [W],
    [k] successive selections return [W[c mod n]], [W[(c+1) mod n]], ...,
    [W[(c+k-1) mod n]]. *)
Lemma round_robin_from_cursor (w : World) (name : string) (tp : Topic.t) (k : nat) :
  Broker.topics (broker w) !! name = Some tp ->
  Topic.workers tp <> [] ->
  Topic.next_worker_index tp <= length (Topic.workers tp) ->
  exists i, next_workers k name w =
    Done (map (fun j => Topic.workers tp !!
                          ((Topic.next_worker_index tp + j) mod length (Topic.workers tp)))
              (seq 0 k))
         (with_cursor w name tp i).
Proof.
  revert w tp. induction k as [|k IH]; intros w tp Htp Hne Hle.
  - exists (Topic.next_worker_index tp). cbn. rewrite with_cursor_same by exact Htp. reflexivity.
  - assert (Hn : length (Topic.workers tp) <> 0) by (destruct (Topic.workers tp); simpl; congruence).
    set (n := length (Topic.workers tp)) in *.
    set (c := Topic.next_worker_index tp) in *.
    cbn [next_workers]. unfold mbind at 1, M_bind at 1, bind at 1.
    rewrite (get_next_worker_name_run w name tp Htp).
    (* the index [c] the call reads, and the cursor [c'] it leaves, with
       [c' + j = c + S j] modulo [n] *)
    assert (Hstep : exists c' x, c' <= n /\
              Topic.workers tp !! (c mod n) = Some x /\
              get_next_worker_name name w = Done (Some x) (with_cursor w name tp c') /\
              (forall j, (c' + j) mod n = (c + S j) mod n)).
    { rewrite (get_next_worker_name_run w name tp Htp). fold c.
      destruct (decide (c < n)) as [Hlt|Hge].
      - destruct (lookup_lt_is_Some_2 (Topic.workers tp) c Hlt) as [x Hx].
        exists (S c), x. rewrite Hx, Nat.mod_small by exact Hlt.
        split; [lia|]. split; [exact Hx|]. split; [reflexivity|].
        intros j. f_equal. lia.
      - assert (Hc : c = n) by lia.
        assert (Hnone : Topic.workers tp !! c = None) by (apply lookup_ge_None_2; lia).
        rewrite Hnone, Hc, Nat.Div0.mod_same.
        destruct (Topic.workers tp) as [|x ws] eqn:Hw; [contradiction|].
        exists 1, x.
        split; [lia|]. split; [reflexivity|]. split; [reflexivity|].
        intros j. replace (n + S j) with (1 + j + 1 * n) by lia.
        rewrite Nat.Div0.mod_add. reflexivity. }
    destruct Hstep as (c' & x & Hc' & Hx & Hrun & Hmod).
    rewrite <- (get_next_worker_name_run w name tp Htp), Hrun.
    destruct (IH (with_cursor w name tp c') (Topic.set_next_worker_index tp c')
                (with_cursor_lookup w name tp c') Hne Hc') as [i Hi].
    exists i. unfold mbind, M_bind, bind. rewrite Hi. unfold ret.
    rewrite with_cursor_twice. f_equal. cbn [seq map]. rewrite Nat.add_0_r, Hx. f_equal.
    rewrite <- seq_shift, map_map. apply map_ext. intros j. cbn. rewrite Hmod. reflexivity.
Qed.

(** The first index a selection reads: the cursor while it points into
    the worker list, and [0] once it has run past its end. *)
Definition round_robin_start (tp : Topic.t) : nat :=
  if Topic.next_worker_index tp <? length (Topic.workers tp)
  then Topic.next_worker_index tp else 0.

(** On a topic with [n > 0] workers [W], whatever its cursor, [k]
    successive selections return [W[s mod n]], [W[(s+1) mod n]], ...,
    [W[(s+k-1) mod n]], where [s] is the cursor if it is below [n] and [0]
    otherwise (a cursor left past the end by an eviction restarts at the
    head of the list): every worker is chosen in turn, wrapping around at
    the end of the list, and nothing but the topic's cursor changes. *)
Theorem get_next_worker_name_round_robin (w : World) (name : string) (tp : Topic.t) (k : nat) :
  Broker.topics (broker w) !! name = Some tp ->
  Topic.workers tp <> [] ->
  exists i, next_workers k name w =
    Done (map (fun j => Topic.workers tp !!
                          ((round_robin_start tp + j) mod length (Topic.workers tp)))
              (seq 0 k))
         (with_cursor w name tp i).
Proof.
  intros Htp Hne.
  assert (Hn : length (Topic.workers tp) <> 0) by (destruct (Topic.workers tp); simpl; congruence).
  unfold round_robin_start.
  destruct (Nat.ltb_spec (Topic.next_worker_index tp) (length (Topic.workers tp))) as [Hlt|Hge].
  - apply round_robin_from_cursor; [exact Htp | exact Hne | lia].
  - destruct k as [|k].
    + exists (Topic.next_worker_index tp). cbn. rewrite with_cursor_same by exact Htp.
      reflexivity.
    + cbn [next_workers]. unfold mbind at 1, M_bind at 1, bind at 1.
      rewrite (get_next_worker_name_run w name tp Htp).
      rewrite (lookup_ge_None_2 (Topic.workers tp) (Topic.next_worker_index tp)) by lia.
      destruct (round_robin_from_cursor (with_cursor w name tp 1) name
                  (Topic.set_next_worker_index tp 1) k (with_cursor_lookup w name tp 1))
        as [i Hi].
      { destruct tp; exact Hne. }
      { destruct tp; cbn in *. lia. }
      exists i. unfold mbind, M_bind, bind. rewrite Hi. unfold ret.
      rewrite with_cursor_twice. f_equal. cbn [seq map].
      rewrite Nat.add_0_l, Nat.Div0.mod_0_l.
      destruct (Topic.workers tp) as [|x ws] eqn:Hw; [contradiction|].
      cbn [head]. f_equal.
      rewrite <- seq_shift, map_map. apply map_ext. intros j. destruct tp; cbn in *.
      rewrite Hw. reflexivity.
Qed.

(** Three workers registered on [T]. *)
Definition three_workers : World :=
  world_of (run all_reachable 0
    [mkMsg "a" "@@REGISTER" "T" ""; mkMsg "b" "@@REGISTER" "T" "";
     mkMsg "c" "@@REGISTER" "T" ""] init).

(** [a], [b] and [c] work on [T] and three requests on [T] move its cursor
    to [3]; [b] also works on [U] and is unreachable when a request on [U]
    arrives, so it is evicted: [T] keeps [a] and [c] with its cursor at [3]. *)
Definition cursor_past_end : World :=
  world_of (run (fun s => negb (String.eqb s "b")) 0 [mkMsg "y" "U" "R" "u"]
    (world_of (run all_reachable 0
      [mkMsg "x" "T" "R" "1"; mkMsg "x" "T" "R" "2"; mkMsg "x" "T" "R" "3";
       mkMsg "b" "@@REGISTER" "U" ""] three_workers))).
Definition topic_T_ac : Topic.t := Topic.mk "T" ["a"; "c"] 3 [].

Lemma get_next_worker_name_round_robin_witness :
  Broker.topics (broker cursor_past_end) !! "T" = Some topic_T_ac
  /\ Topic.workers topic_T_ac <> []
  /\ exists i, next_workers 3 "T" cursor_past_end =
       Done [Some "a"; Some "c"; Some "a"] (with_cursor cursor_past_end "T" topic_T_ac i).
Proof.
  assert (H1 : Broker.topics (broker cursor_past_end) !! "T" = Some topic_T_ac)
    by (vm_compute; reflexivity).
  assert (H2 : Topic.workers topic_T_ac <> []) by discriminate.
  split; [exact H1|]. split; [exact H2|].
  exact (get_next_worker_name_round_robin cursor_past_end "T" topic_T_ac 3 H1 H2).
Defined.

(** ** One dispatch *)

Lemma get_next_worker_name_out name w r w1 :
  get_next_worker_name name w = Done r w1 -> out w1 = out w.
Proof.
  unfold get_next_worker_name, mbind, M_bind, bind, gets.
  destruct (Broker.topics (broker w) !! name) as [tp|]; [|unfold ret; intros H; injection H as _ <-; reflexivity].
  destruct (Topic.workers tp !! Topic.next_worker_index tp);
    unfold upd_topics, modify, ret; intros H; injection H as _ <-; reflexivity.
Qed.

Lemma remove_worker_out name w w1 :
  remove_worker name w = Done tt w1 -> out w1 = out w.
Proof.
  intros H.
  assert (Hk : keeps_at (fun b b' => True) w (remove_worker name)) by (intros ? ? ?; exact I).
  revert H. unfold remove_worker, mbind, M_bind, bind at 1, gets.
  destruct (Broker.clients (broker w) !! name) as [c|]; [|discriminate].
  unfold bind. destruct (remove_worker_from_topics c w) as [[] w2|f] eqn:H2; [|discriminate].
  unfold upd_clients, modify. intros H. injection H as <-. cbn.
  clear Hk. revert w H2. unfold remove_worker_from_topics.
  induction (Client.topics c) as [|a l IH]; intros w H2; cbn in H2.
  - injection H2 as <-. reflexivity.
  - unfold mbind, M_bind, bind, gets in H2.
    destruct (Broker.topics (broker w) !! a) as [tp|].
    + destruct (position _ _) as [i|]; [|discriminate].
      destruct (vec_remove i _) as [ws|]; [|discriminate].
      unfold upd_topics, modify in H2. rewrite (IH _ H2). reflexivity.
    + unfold ret in H2. exact (IH _ H2).
Qed.

Lemma send_task_shape deliver now task w r t' w' :
  send_task deliver now task w = Done (r, t') w' ->
  Task.worker_name t' = r /\ task_key t' = task_key task /\ Task.date t' = now /\
  match r with
  | None => Task.sent t' = Task.sent task /\ out w' = out w
  | Some x => Task.sent t' = true -> out w' = out w ++ [Sent x (Task.payload task)]
  end.
Proof.
  unfold send_task, mbind, M_bind, bind at 1.
  destruct (get_next_worker_name _ w) as [[x|] w1|f] eqn:G; [| |discriminate].
  all: pose proof (get_next_worker_name_out _ _ _ _ G) as Ho1.
  - unfold send3. destruct (deliver x); unfold bind, emit, ret; cbn beta iota.
    + intros H. injection H as <- <- <-. rewrite Ho1. repeat split.
    + destruct (remove_worker x w1) as [[] w3|f]; [|discriminate].
      intros H. injection H as <- <- <-. repeat split. discriminate.
  - unfold ret. intros H. injection H as <- <- <-. repeat split. exact Ho1.
Qed.

Lemma dispatch_result deliver now fuel task w w' :
  Task.sent task = false ->
  dispatch deliver now fuel task w = Done tt w' ->
  exists t', task_key t' = task_key task /\ Task.date t' = now /\
    ((Broker.tasks (broker w') = Broker.tasks (broker w) ++ [t']
      /\ Broker.tasks_to_retry (broker w') = Broker.tasks_to_retry (broker w)
      /\ Task.sent t' = true
      /\ exists x, Task.worker_name t' = Some x
                   /\ last (out w') = Some (Sent x (Task.payload task)))
     \/ (Broker.tasks (broker w') = Broker.tasks (broker w)
      /\ Broker.tasks_to_retry (broker w') = Broker.tasks_to_retry (broker w) ++ [t']
      /\ Task.sent t' = false /\ Task.worker_name t' = None
      /\ last (out w') = Some (NoWorker (Task.worker_topic task)))).
Proof.
  revert task w w'. induction fuel as [|fuel IH]; intros task w w' Hs0 H; [discriminate H|].
  cbn [dispatch] in H. unfold mbind at 1, M_bind at 1, bind at 1 in H.
  destruct (send_task deliver now task w) as [[r t1] w1|f] eqn:H1; [|discriminate H].
  destruct (send_task_result _ _ _ _ _ _ _ H1) as (_ & _ & Hs1 & Hr1).
  destruct (send_task_shape _ _ _ _ _ _ _ H1) as (Hwn & Hk1 & Hd1 & Hr).
  assert (Hp : Task.payload t1 = Task.payload task) by (unfold task_key in Hk1; congruence).
  assert (Hwt : Task.worker_topic t1 = Task.worker_topic task)
    by (unfold task_key in Hk1; congruence).
  destruct r as [x|].
  - destruct (Task.sent t1) eqn:Hs.
    + unfold modify in H. injection H as <-. cbn.
      exists t1. split; [exact Hk1|]. split; [exact Hd1|]. left.
      rewrite Hs1, Hr1. split; [reflexivity|]. split; [reflexivity|]. split; [exact Hs|].
      exists x. split; [exact Hwn|]. rewrite (Hr eq_refl), last_app. reflexivity.
    + destruct (IH t1 w1 w' Hs H) as (t' & Hk & Hd & Ho). exists t'.
      split; [congruence|]. split; [exact Hd|]. rewrite Hs1, Hr1, Hp, Hwt in Ho. exact Ho.
  - destruct Hr as [Hs Ho1].
    unfold mbind, M_bind, bind, emit, modify in H. injection H as <-. cbn.
    exists t1. split; [exact Hk1|]. split; [exact Hd1|]. right.
    rewrite Hs1, Hr1. split; [reflexivity|]. split; [reflexivity|].
    split; [congruence|]. split; [exact Hwn|]. rewrite last_app, Hwt. reflexivity.
Qed.

(** A task not yet sent that goes through [send_task_and_retry] ends, when
    no panic occurs, in exactly one of two places: appended to the
    in-flight table, marked sent, with the chosen worker recorded and its
    payload as the last datagram enqueued; or appended to the retry queue,
    unsent and with no worker, after the "no worker" line.  Either way it
    keeps its topics and payload and is stamped with the current time. *)
Theorem send_task_and_retry_outcome deliver now (task : Task.t) (w w' : World) :
  Task.sent task = false ->
  send_task_and_retry deliver now task w = Done tt w' ->
  exists t', task_key t' = task_key task /\ Task.date t' = now /\
    ((Broker.tasks (broker w') = Broker.tasks (broker w) ++ [t']
      /\ Broker.tasks_to_retry (broker w') = Broker.tasks_to_retry (broker w)
      /\ Task.sent t' = true
      /\ exists x, Task.worker_name t' = Some x
                   /\ last (out w') = Some (Sent x (Task.payload task)))
     \/ (Broker.tasks (broker w') = Broker.tasks (broker w)
      /\ Broker.tasks_to_retry (broker w') = Broker.tasks_to_retry (broker w) ++ [t']
      /\ Task.sent t' = false /\ Task.worker_name t' = None
      /\ last (out w') = Some (NoWorker (Task.worker_topic task)))).
Proof. intros Hs H. exact (dispatch_result _ _ _ _ _ _ Hs H). Qed.

(** A fresh request on [T] in the state with three workers. *)
Definition request_T : Task.t := Task.new "T" "R" "q" 0.

Lemma send_task_and_retry_outcome_witness :
  Task.sent request_T = false
  /\ send_task_and_retry all_reachable 0 request_T three_workers
     = Done tt (world_of (send_task_and_retry all_reachable 0 request_T three_workers))
  /\ exists t', task_key t' = task_key request_T /\ Task.date t' = 0 /\
    ((Broker.tasks (broker (world_of (send_task_and_retry all_reachable 0 request_T three_workers)))
        = Broker.tasks (broker three_workers) ++ [t']
      /\ Broker.tasks_to_retry (broker (world_of (send_task_and_retry all_reachable 0 request_T three_workers)))
        = Broker.tasks_to_retry (broker three_workers)
      /\ Task.sent t' = true
      /\ exists x, Task.worker_name t' = Some x
         /\ last (out (world_of (send_task_and_retry all_reachable 0 request_T three_workers)))
            = Some (Sent x (Task.payload request_T)))
     \/ (Broker.tasks (broker (world_of (send_task_and_retry all_reachable 0 request_T three_workers)))
        = Broker.tasks (broker three_workers)
      /\ Broker.tasks_to_retry (broker (world_of (send_task_and_retry all_reachable 0 request_T three_workers)))
        = Broker.tasks_to_retry (broker three_workers) ++ [t']
      /\ Task.sent t' = false /\ Task.worker_name t' = None
      /\ last (out (world_of (send_task_and_retry all_reachable 0 request_T three_workers)))
         = Some (NoWorker (Task.worker_topic request_T)))).
Proof.
  assert (H1 : Task.sent request_T = false) by reflexivity.
  assert (H2 : send_task_and_retry all_reachable 0 request_T three_workers
     = Done tt (world_of (send_task_and_retry all_reachable 0 request_T three_workers)))
    by (vm_compute; reflexivity).
  split; [exact H1|]. split; [exact H2|].
  exact (send_task_and_retry_outcome all_reachable 0 request_T three_workers _ H1 H2).
Defined.

(** ** The shape of the two task tables *)

(** Every in-flight task has been sent and names its worker; every parked
    task is unsent and names none. *)
Definition task_tables_ok (b : Broker.t) : Prop :=
  Forall (fun t => Task.sent t = true /\ Task.worker_name t <> None) (Broker.tasks b) /\
  Forall (fun t => Task.sent t = false /\ Task.worker_name t = None) (Broker.tasks_to_retry b).

Lemma task_tables_ok_same b b' : same_tasks b b' -> task_tables_ok b -> task_tables_ok b'.
Proof. intros [E1 E2] [H1 H2]. unfold task_tables_ok. rewrite E1, E2. auto. Qed.

Lemma same_tasks_respond_to deliver tp payload name :
  keeps same_tasks (respond_to deliver tp payload name).
Proof. intros w. unfold respond_to. same_tasks_solve. Qed.

Lemma same_tasks_print_debug : keeps same_tasks print_debug.
Proof. intros w. unfold print_debug. same_tasks_solve. Qed.

Lemma send_response_tasks deliver name payload w w' :
  send_response deliver name payload w = Done tt w' ->
  Broker.tasks (broker w') =
    match Broker.topics (broker w) !! name with
    | None => Broker.tasks (broker w)
    | Some _ => List.filter (fun t => negb (String.eqb (Task.response_topic t) name))
                  (Broker.tasks (broker w))
    end
  /\ Broker.tasks_to_retry (broker w') = Broker.tasks_to_retry (broker w)
  /\ (Broker.topics (broker w) !! name = None -> w' = w).
Proof.
  unfold send_response, mbind, M_bind, bind at 1, gets.
  destruct (Broker.topics (broker w) !! name) as [tp|].
  2:{ unfold ret. intros H. injection H as <-. auto. }
  unfold bind at 1.
  destruct (for_each (respond_to deliver tp payload) (Topic.clients tp) w) as [[] w1|f] eqn:H1;
    [|discriminate].
  assert (Hs : same_tasks (broker w) (broker w1)).
  { apply (keeps_for_each _ same_tasks_refl same_tasks_trans _ _ (same_tasks_respond_to deliver tp payload) w _ _ H1). }
  destruct Hs as [E1 E2].
  unfold bind. destruct (Broker.topics (broker w1) !! name) as [tp'|]; [|discriminate].
  unfold mbind, M_bind, bind, upd_topics, modify.
  destruct (is_empty (Topic.workers tp')); unfold ret; cbn;
    intros H; injection H as <-; cbn; rewrite E1, E2; (split; [reflexivity|]); (split; [reflexivity|]); intros Hc; discriminate Hc.
Qed.

Lemma sweep_task_tasks now acc t w acc1 w1 :
  sweep_task now acc t w = Done acc1 w1 ->
  (acc1 = acc ++ [t] \/ acc1 = acc)
  /\ Broker.tasks_to_retry (broker w1) = Broker.tasks_to_retry (broker w).
Proof.
  unfold sweep_task, mbind, M_bind, bind, gets.
  destruct (now <? Task.date t); [discriminate|].
  destruct (now - Task.date t <? _);
    unfold upd_topics, upd_clients, modify, ret; intros H; injection H as <- <-; auto.
Qed.

Lemma sweep_fold_tasks now (ts acc kept : list Task.t) w w1 :
  fold_m (sweep_task now) acc ts w = Done kept w1 ->
  (forall t, t ∈ kept -> t ∈ acc \/ t ∈ ts)
  /\ Broker.tasks_to_retry (broker w1) = Broker.tasks_to_retry (broker w).
Proof.
  revert acc w. induction ts as [|t ts IH]; intros acc w H; cbn [fold_m] in H.
  - unfold ret in H. injection H as <- <-. split; auto.
  - unfold mbind, M_bind, bind in H.
    destruct (sweep_task now acc t w) as [acc1 w2|f] eqn:Hs; [|discriminate H].
    destruct (sweep_task_tasks _ _ _ _ _ _ Hs) as [Ha1 Hr1].
    destruct (IH _ _ H) as [Hin Hr]. split; [|congruence].
    intros t' Ht'. destruct (Hin t' Ht') as [Ha|Hb].
    + destruct Ha1 as [->| ->]; [|auto].
      apply elem_of_app in Ha as [Ha|Ha]; [auto|].
      apply list_elem_of_singleton in Ha as ->. right. apply list_elem_of_here.
    + right. apply elem_of_cons. auto.
Qed.

Lemma remove_timeout_tasks_tasks now w w' :
  remove_timeout_tasks now w = Done tt w' ->
  (forall t, t ∈ Broker.tasks (broker w') -> t ∈ Broker.tasks (broker w))
  /\ Broker.tasks_to_retry (broker w') = Broker.tasks_to_retry (broker w).
Proof.
  unfold remove_timeout_tasks, mbind, M_bind, bind at 1, gets. unfold bind.
  destruct (fold_m (sweep_task now) [] (Broker.tasks (broker w)) w) as [kept w1|f] eqn:H1;
    [|discriminate].
  destruct (sweep_fold_tasks _ _ _ _ _ _ H1) as [Hin Hr].
  unfold modify. intros H. injection H as <-. cbn. split; [|exact Hr].
  intros t Ht. destruct (Hin t Ht) as [Ha|Hb]; [by apply not_elem_of_nil in Ha | exact Hb].
Qed.

Lemma dispatch_tables_ok deliver now fuel task w w' :
  Task.sent task = false -> task_tables_ok (broker w) ->
  dispatch deliver now fuel task w = Done tt w' -> task_tables_ok (broker w').
Proof.
  intros Hs [H1 H2] H.
  destruct (dispatch_result _ _ _ _ _ _ Hs H) as (t' & _ & _ & Ho).
  unfold task_tables_ok. destruct Ho as [(E1 & E2 & Hs' & x & Hx & _)|(E1 & E2 & Hs' & Hx & _)];
    rewrite E1, E2; split; auto;
    apply Forall_app; split; auto; constructor; auto; split; [exact Hs'|]; congruence.
Qed.

Lemma retry_loop_tables_ok deliver now (q : list Task.t) w w' :
  Forall (fun t => Task.sent t = false) q -> task_tables_ok (broker w) ->
  for_each (send_task_and_retry deliver now) q w = Done tt w' -> task_tables_ok (broker w').
Proof.
  revert w. induction q as [|t q IH]; intros w Hq Hok H; cbn in H.
  - unfold ret in H. injection H as <-. exact Hok.
  - apply Forall_cons in Hq as [Ht Hq].
    unfold mbind, M_bind, bind in H.
    destruct (send_task_and_retry deliver now t w) as [[] w1|f] eqn:H1; [|discriminate].
    exact (IH w1 Hq (dispatch_tables_ok _ _ _ _ _ _ Ht Hok H1) H).
Qed.

Lemma bind_Done {A B} (m : M A) (k : A -> M B) w b w' :
  (m ≫= k) w = Done b w' -> exists a w1, m w = Done a w1 /\ k a w1 = Done b w'.
Proof.
  unfold mbind, M_bind, bind. destruct (m w) as [a w1|f]; [|discriminate]. eauto.
Qed.

Lemma step_tables_ok deliver now (m : Msg) w w' :
  task_tables_ok (broker w) -> step deliver now m w = Done tt w' -> task_tables_ok (broker w').
Proof.
  intros Hok H. unfold step in H.
  apply bind_Done in H as ([] & w1 & H1 & H).
  apply bind_Done in H as ([] & w2 & H2 & H3).
  assert (Hok1 : task_tables_ok (broker w1)).
  { destruct (String.eqb (topic m) "@@PING");
      [|destruct (String.eqb (topic m) "@@REGISTER");
        [|destruct (String.eqb (response_topic m) "")]].
    - apply (task_tables_ok_same (broker w)); [|exact Hok].
      assert (Hk : keeps_at same_tasks w
        (c ← gets (fun b => Broker.clients b !! identity m);
         (if String.prefix "worker" (identity m) && match c with None => true | Some _ => false end
          then _ ← send3 deliver (identity m) "@@REGISTER"; ret tt else ret tt) ;;
         _ ← send3 deliver (identity m) "@@PONG"; ret tt)) by same_tasks_solve.
      exact (Hk _ _ H1).
    - apply bind_Done in H1 as ([] & w3 & H4 & H5).
      apply (task_tables_ok_same _ _ (add_client_tasks _ _ _ _ _ _ H4)) in Hok.
      unfold retry_tasks in H5. apply bind_Done in H5 as (q & w5 & H6 & H7).
      unfold gets in H6. injection H6 as <- <-.
      apply bind_Done in H7 as ([] & w6 & H8 & H9).
      unfold modify in H8. injection H8 as <-.
      destruct Hok as [Ht Hr].
      refine (retry_loop_tables_ok _ _ _ _ _ _ _ H9).
      + eapply Forall_impl; [exact Hr|]. intros t [Hs _]. exact Hs.
      + split; [exact Ht | constructor].
    - destruct (send_response_tasks _ _ _ _ _ H1) as (E1 & E2 & _).
      destruct Hok as [Ht Hr]. split; rewrite ?E1, ?E2; [|exact Hr].
      destruct (_ !! _); [|exact Ht].
      apply Forall_forall. intros t0 Hin. apply list_elem_of_In, filter_In in Hin as [Hin _].
      rewrite Forall_forall in Ht. apply Ht, list_elem_of_In, Hin.
    - apply bind_Done in H1 as ([] & w3 & H4 & H5).
      apply (task_tables_ok_same _ _ (add_client_tasks _ _ _ _ _ _ H4)) in Hok.
      unfold send_task_and_retry in H5. refine (dispatch_tables_ok _ _ _ _ _ _ _ Hok H5). reflexivity. }
  assert (Hok2 : task_tables_ok (broker w2)).
  { destruct (remove_timeout_tasks_tasks _ _ _ H2) as [Hin Hr].
    destruct Hok1 as [Ht1 Hr1]. split.
    - apply Forall_forall. intros t Ht. apply Hin in Ht.
      rewrite Forall_forall in Ht1. exact (Ht1 t Ht).
    - rewrite Hr. exact Hr1. }
  apply (task_tables_ok_same (broker w2)); [|exact Hok2].
  destruct (negb _).
  - exact (same_tasks_print_debug w2 _ _ H3).
  - unfold ret in H3. injection H3 as <-. apply same_tasks_refl.
Qed.

(** The event loop over a sequence of messages, each handled at its own
    time [now] and with the peers reachable at that moment ([deliver]). *)
Fixpoint run_timed (ms : list ((string -> bool) * nat * Msg)) : M unit :=
  match ms with
  | [] => ret tt
  | (deliver, now, m) :: ms' => step deliver now m ;; run_timed ms'
  end.

(** Every state the event loop reaches from one where in-flight tasks are
    sent and name their worker, and parked tasks are unsent and name none,
    has the same shape (the empty broker of [main] is such a state),
    whatever the clock and the reachable peers at each message: a task is
    never in flight unsent, and never parked with a worker. *)
Theorem run_keeps_task_tables (ms : list ((string -> bool) * nat * Msg)) (w w' : World) :
  task_tables_ok (broker w) -> run_timed ms w = Done tt w' -> task_tables_ok (broker w').
Proof.
  revert w. induction ms as [|[[deliver now] m] ms IH]; intros w Hok H; cbn [run_timed] in H.
  - unfold ret in H. injection H as <-. exact Hok.
  - apply bind_Done in H as ([] & w1 & H1 & H2).
    exact (IH w1 (step_tables_ok _ _ _ _ _ Hok H1) H2).
Qed.

(** A request is dispatched at time [0] to [w1]; [w2] registers on [T] at
    time [30]; at time [100] a request of [c2] finds [w2] unreachable, so
    [w2] is evicted and the request goes to [w1], and the sweep then drops
    the first task, which has timed out. *)
Definition w2_unreachable (s : string) : bool := negb (String.eqb s "w2").
Definition timed_scenario : list ((string -> bool) * nat * Msg) :=
  [(all_reachable, 0, mkMsg "w1" "@@REGISTER" "T" "");
   (all_reachable, 0, mkMsg "c1" "T" "R" "P");
   (all_reachable, 30, mkMsg "w2" "@@REGISTER" "T" "");
   (w2_unreachable, 100, mkMsg "c2" "T" "R2" "Q")].

Lemma run_keeps_task_tables_witness :
  task_tables_ok (broker init)
  /\ run_timed timed_scenario init = Done tt (world_of (run_timed timed_scenario init))
  /\ task_tables_ok (broker (world_of (run_timed timed_scenario init))).
Proof.
  assert (H1 : task_tables_ok (broker init)) by (split; constructor).
  assert (H2 : run_timed timed_scenario init = Done tt (world_of (run_timed timed_scenario init)))
    by (vm_compute; reflexivity).
  split; [exact H1|]. split; [exact H2|].
  exact (run_keeps_task_tables timed_scenario init _ H1 H2).
Defined.

(** ** Replies and the in-flight table *)

(** A reply on a response topic that has no row changes nothing at all (its
    in-flight tasks stay, as does the rest of the state).  A reply on an
    existing response topic that completes drops every in-flight task on
    that topic and keeps the others in order; the retry queue is never
    touched. *)
Theorem send_response_clears_tasks deliver (name payload : string) (w w' : World) :
  send_response deliver name payload w = Done tt w' ->
  Broker.tasks (broker w') =
    match Broker.topics (broker w) !! name with
    | None => Broker.tasks (broker w)
    | Some _ => List.filter (fun t => negb (String.eqb (Task.response_topic t) name))
                  (Broker.tasks (broker w))
    end
  /\ Broker.tasks_to_retry (broker w') = Broker.tasks_to_retry (broker w)
  /\ (Broker.topics (broker w) !! name = None -> w' = w).
Proof. apply send_response_tasks. Qed.

Lemma send_response_clears_tasks_witness :
  send_response all_reachable "R" "q" double_subscription
    = Done tt (world_of (send_response all_reachable "R" "q" double_subscription))
  /\ Broker.tasks (broker (world_of (send_response all_reachable "R" "q" double_subscription))) =
    match Broker.topics (broker double_subscription) !! "R" with
    | None => Broker.tasks (broker double_subscription)
    | Some _ => List.filter (fun t => negb (String.eqb (Task.response_topic t) "R"))
                  (Broker.tasks (broker double_subscription))
    end
  /\ Broker.tasks_to_retry (broker (world_of (send_response all_reachable "R" "q" double_subscription)))
     = Broker.tasks_to_retry (broker double_subscription)
  /\ (Broker.topics (broker double_subscription) !! "R" = None ->
      world_of (send_response all_reachable "R" "q" double_subscription) = double_subscription).
Proof.
  assert (H : send_response all_reachable "R" "q" double_subscription
    = Done tt (world_of (send_response all_reachable "R" "q" double_subscription)))
    by (vm_compute; reflexivity).
  split; [exact H|].
  exact (send_response_clears_tasks all_reachable "R" "q" _ _ H).
Defined.

(** ** Evicting a worker *)

(** The worker lists after [remove_worker_from_topics] for a worker named
    [n] subscribed to [L]: each topic [T] loses [n] once per occurrence of
    [T] in [L]. *)
Definition unlinked (n : string) (L : list string) (T : string) (tp : Topic.t) : Topic.t :=
  Topic.set_workers tp (Nat.iter (occurrences T L) (remove_one n) (Topic.workers tp)).

Lemma set_workers_twice tp a b :
  Topic.set_workers (Topic.set_workers tp a) b = Topic.set_workers tp b.
Proof. destruct tp; reflexivity. Qed.

Lemma broker_set_topics_twice b m1 m2 :
  Broker.set_topics (Broker.set_topics b m1) m2 = Broker.set_topics b m2.
Proof. destruct b; reflexivity. Qed.

Lemma remove_worker_from_topics_cons worker a L :
  remove_worker_from_topics (Client.set_topics worker (a :: L)) =
  ((t ← gets (fun b => Broker.topics b !! a);
   match t with
   | None => ret tt
   | Some topic =>
       match position (String.eqb (Client.name worker)) (Topic.workers topic) with
       | None => panic
       | Some i =>
           match vec_remove i (Topic.workers topic) with
           | None => panic
           | Some ws => upd_topics (<[a := Topic.set_workers topic ws]>)
           end
       end
   end) ;; remove_worker_from_topics (Client.set_topics worker L)).
Proof. reflexivity. Qed.

Lemma remove_worker_from_topics_done worker (L : list string) (w : World) :
  (forall T tp, Broker.topics (broker w) !! T = Some tp ->
     occurrences T L <= occurrences (Client.name worker) (Topic.workers tp)) ->
  exists tops,
    remove_worker_from_topics (Client.set_topics worker L) w
      = Done tt (mkWorld (Broker.set_topics (broker w) tops) (out w))
    /\ forall T, tops !! T = unlinked (Client.name worker) L T <$> Broker.topics (broker w) !! T.
Proof.
  revert w. induction L as [|a L IH]; intros w Hpre.
  - exists (Broker.topics (broker w)). split.
    + destruct w as [[] o]. reflexivity.
    + intros T. unfold unlinked. cbn. destruct (_ !! T) as [tp|]; [|reflexivity].
      cbn. destruct tp; reflexivity.
  - rewrite remove_worker_from_topics_cons.
    unfold mbind at 1, M_bind at 1, bind at 1, mbind, M_bind, bind at 1, gets.
    destruct (Broker.topics (broker w) !! a) as [tp|] eqn:Ha.
    + set (n := Client.name worker) in *.
      assert (Hocc : 0 < occurrences n (Topic.workers tp)).
      { pose proof (Hpre a tp Ha) as Hle. rewrite occurrences_cons, String.eqb_refl in Hle. lia. }
      destruct (position_vec_remove _ _ Hocc) as (i & Hp & Hv). rewrite Hp, Hv.
      set (tp1 := Topic.set_workers tp (remove_one n (Topic.workers tp))).
      set (w1 := mkWorld (Broker.set_topics (broker w) (<[a := tp1]> (Broker.topics (broker w)))) (out w)).
      assert (Hpre1 : forall T tp', Broker.topics (broker w1) !! T = Some tp' ->
                occurrences T L <= occurrences n (Topic.workers tp')).
      { intros T tp' HT. cbn in HT. destruct (String.eqb_spec a T) as [<-|Hne].
        - rewrite lookup_insert_eq in HT. injection HT as <-. subst tp1. cbn [Topic.workers Topic.set_workers].
          rewrite occurrences_remove_one.
          pose proof (Hpre a tp Ha) as Hle. rewrite occurrences_cons, String.eqb_refl in Hle. lia.
        - rewrite lookup_insert_ne in HT by exact Hne.
          pose proof (Hpre T tp' HT) as Hle. rewrite occurrences_cons in Hle.
          apply String.eqb_neq in Hne. rewrite String.eqb_sym, Hne in Hle. exact Hle. }
      destruct (IH w1 Hpre1) as (tops & Hrun & Htops).
      exists tops. unfold upd_topics, modify. cbn beta iota.
      fold tp1. replace (mkWorld (Broker.set_topics (broker w) (<[a:=tp1]> (Broker.topics (broker w)))) (out w)) with w1 by reflexivity. rewrite Hrun. split.
      * subst w1. cbn. rewrite broker_set_topics_twice. reflexivity.
      * intros T. rewrite Htops. cbn. unfold unlinked. rewrite occurrences_cons.
        destruct (String.eqb_spec a T) as [<-|Hne].
        -- rewrite lookup_insert_eq, Ha, String.eqb_refl. cbn. subst tp1.
           rewrite set_workers_twice, <- Nat.iter_succ_r. reflexivity.
        -- rewrite lookup_insert_ne by exact Hne.
           apply String.eqb_neq in Hne. rewrite String.eqb_sym, Hne. reflexivity.
    + unfold ret. cbn beta iota.
      assert (Hpre1 : forall T tp', Broker.topics (broker w) !! T = Some tp' ->
                occurrences T L <= occurrences (Client.name worker) (Topic.workers tp')).
      { intros T tp' HT. pose proof (Hpre T tp' HT) as Hle. rewrite occurrences_cons in Hle. lia. }
      destruct (IH w Hpre1) as (tops & Hrun & Htops). exists tops. split; [exact Hrun|].
      intros T. rewrite Htops. unfold unlinked. rewrite occurrences_cons.
      destruct (String.eqb_spec T a) as [->|Hne].
      * rewrite Ha. reflexivity.
      * reflexivity.
Qed.

Lemma remove_worker_from_topics_panics worker (L : list string) (w : World) T tp :
  Broker.topics (broker w) !! T = Some tp ->
  occurrences (Client.name worker) (Topic.workers tp) < occurrences T L ->
  remove_worker_from_topics (Client.set_topics worker L) w = Abort Panic.
Proof.
  revert w tp. induction L as [|a L IH]; intros w tp HT Hlt.
  - unfold occurrences in Hlt. cbn in Hlt. lia.
  - rewrite remove_worker_from_topics_cons.
    unfold mbind at 1, M_bind at 1, bind at 1, mbind, M_bind, bind at 1, gets.
    destruct (Broker.topics (broker w) !! a) as [tpa|] eqn:Ha.
    + set (n := Client.name worker) in *.
      destruct (decide (0 < occurrences n (Topic.workers tpa))) as [Hpos|Hzero].
      * destruct (position_vec_remove _ _ Hpos) as (i & Hp & Hv). rewrite Hp, Hv.
        unfold upd_topics, modify. cbn beta iota.
        destruct (String.eqb_spec a T) as [<-|Hne].
        -- rewrite Ha in HT. injection HT as <-.
           apply (IH _ (Topic.set_workers tpa (remove_one n (Topic.workers tpa)))).
           ++ cbn. apply lookup_insert_eq.
           ++ cbn [Topic.workers Topic.set_workers]. rewrite occurrences_remove_one.
              rewrite occurrences_cons, String.eqb_refl in Hlt. lia.
        -- apply (IH _ tp).
           ++ cbn. rewrite lookup_insert_ne by exact Hne. exact HT.
           ++ rewrite occurrences_cons in Hlt. apply String.eqb_neq in Hne.
              rewrite String.eqb_sym, Hne in Hlt. exact Hlt.
      * assert (Hn : position (String.eqb n) (Topic.workers tpa) = None).
        { apply position_None_iff. intros Hin.
          apply Hzero. unfold occurrences.
          destruct (List.filter (String.eqb n) (Topic.workers tpa)) eqn:Hf; [|cbn; lia].
          exfalso. apply list_elem_of_In in Hin.
          assert (In n (List.filter (String.eqb n) (Topic.workers tpa)))
            by (apply filter_In; split; [exact Hin | apply String.eqb_refl]).
          rewrite Hf in H. exact H. }
        rewrite Hn. reflexivity.
    + unfold ret. cbn beta iota. apply (IH _ tp HT).
      rewrite occurrences_cons in Hlt. destruct (String.eqb_spec T a) as [->|Hne].
      * congruence.
      * exact Hlt.
Qed.

Lemma client_set_topics_same (c : Client.t) : Client.set_topics c (Client.topics c) = c.
Proof. destruct c; reflexivity. Qed.

(** When the row [n] exists and every topic row [T] still lists the
    worker's name at least as often as the worker's own list names [T],
    [remove_worker n] deletes the row [n] and removes the worker's name
    from each topic's worker list once per occurrence of that topic in the
    worker's list (topics without a row are skipped); nothing else changes
    (cursors and client lists included). *)
Theorem remove_worker_evicts (n : string) (c : Client.t) (w : World) :
  Broker.clients (broker w) !! n = Some c ->
  (forall T tp, Broker.topics (broker w) !! T = Some tp ->
     occurrences T (Client.topics c) <= occurrences (Client.name c) (Topic.workers tp)) ->
  exists tops,
    remove_worker n w =
      Done tt (mkWorld (Broker.set_topics
                          (Broker.set_clients (broker w) (delete n (Broker.clients (broker w))))
                          tops) (out w))
    /\ forall T, tops !! T = unlinked (Client.name c) (Client.topics c) T <$> Broker.topics (broker w) !! T.
Proof.
  intros Hc Hpre.
  destruct (remove_worker_from_topics_done c (Client.topics c) w Hpre) as (tops & Hrun & Htops).
  rewrite client_set_topics_same in Hrun.
  exists tops. split; [|exact Htops].
  unfold remove_worker, mbind, M_bind, bind at 1, gets. rewrite Hc.
  unfold bind. rewrite Hrun. unfold upd_clients, modify. cbn.
  destruct w as [[] o]. reflexivity.
Qed.

(** [remove_worker n] panics exactly when there is no row [n], or when some
    topic row lists the worker's name fewer times than the worker's own
    list names that topic (for instance when the worker is only a client
    of one of its topics). *)
Theorem remove_worker_panics_iff (n : string) (w : World) :
  remove_worker n w = Abort Panic <->
  Broker.clients (broker w) !! n = None
  \/ exists c T tp, Broker.clients (broker w) !! n = Some c
       /\ Broker.topics (broker w) !! T = Some tp
       /\ occurrences (Client.name c) (Topic.workers tp) < occurrences T (Client.topics c).
Proof.
  split.
  - destruct (Broker.clients (broker w) !! n) as [c|] eqn:Hc; [|auto].
    intros Hp. right.
    destruct (decide (map_Forall (fun T tp => occurrences T (Client.topics c)
                         <= occurrences (Client.name c) (Topic.workers tp))
                         (Broker.topics (broker w)))) as [Hall|Hnot].
    + destruct (remove_worker_evicts n c w Hc Hall) as (tops & Hrun & _).
      rewrite Hrun in Hp. discriminate Hp.
    + apply map_not_Forall in Hnot as (T & tp & HT & Hlt).
      exists c, T, tp. split; [reflexivity|]. split; [exact HT|]. lia.
      intros; apply _.
  - intros [Hn|(c & T & tp & Hc & HT & Hlt)].
    + unfold remove_worker, mbind, M_bind, bind, gets. rewrite Hn. reflexivity.
    + unfold remove_worker, mbind, M_bind, bind at 1, gets. rewrite Hc.
      pose proof (remove_worker_from_topics_panics c (Client.topics c) w T tp HT Hlt) as Hp.
      rewrite client_set_topics_same in Hp. unfold bind. rewrite Hp. reflexivity.
Qed.

Lemma remove_worker_evicts_witness :
  Broker.clients (broker three_workers) !! "b" = Some (Client.mk "b" true ["T"])
  /\ exists tops,
    remove_worker "b" three_workers =
      Done tt (mkWorld (Broker.set_topics
                          (Broker.set_clients (broker three_workers)
                             (delete "b" (Broker.clients (broker three_workers))))
                          tops) (out three_workers))
    /\ forall T, tops !! T = unlinked "b" ["T"] T <$> Broker.topics (broker three_workers) !! T.
Proof.
  assert (H1 : Broker.clients (broker three_workers) !! "b" = Some (Client.mk "b" true ["T"]))
    by (vm_compute; reflexivity).
  assert (H2 : map_Forall (fun T tp => occurrences T (Client.topics (Client.mk "b" true ["T"]))
                 <= occurrences (Client.name (Client.mk "b" true ["T"])) (Topic.workers tp))
                 (Broker.topics (broker three_workers)))
    by (apply (bool_decide_unpack _); vm_compute; reflexivity).
  split; [exact H1|].
  exact (remove_worker_evicts "b" (Client.mk "b" true ["T"]) three_workers H1 H2).
Defined.

(** ** The timeout sweep: edge cases *)

Lemma sweep_task_done now acc t w :
  Task.date t <= now -> exists acc1 w1, sweep_task now acc t w = Done acc1 w1.
Proof.
  intros Hd. unfold sweep_task, mbind, M_bind, bind, gets.
  rewrite (proj2 (Nat.ltb_ge _ _) Hd).
  destruct (now - Task.date t <? _); unfold upd_topics, upd_clients, modify, ret; eauto.
Qed.

Lemma sweep_fold_panics now (ts acc : list Task.t) w t :
  t ∈ ts -> now < Task.date t -> fold_m (sweep_task now) acc ts w = Abort Panic.
Proof.
  revert acc w. induction ts as [|a ts IH]; intros acc w Hin Hlt.
  - by apply not_elem_of_nil in Hin.
  - cbn [fold_m]. unfold mbind at 1, M_bind at 1, bind at 1.
    destruct (decide (now < Task.date a)) as [Ha|Ha].
    + unfold sweep_task, mbind, M_bind, bind, gets.
      rewrite (proj2 (Nat.ltb_lt _ _) Ha). reflexivity.
    + destruct (sweep_task_done now acc a w) as (acc1 & w1 & H1); [lia|].
      rewrite H1. apply elem_of_cons in Hin as [->|Hin]; [lia|].
      exact (IH acc1 w1 Hin Hlt).
Qed.

(** A task dated after the current time (the clock went back) makes the
    sweep panic: [elapsed().unwrap()] fails, whatever the other tasks. *)
Theorem remove_timeout_tasks_future_panics now (w : World) (t : Task.t) :
  t ∈ Broker.tasks (broker w) -> now < Task.date t ->
  remove_timeout_tasks now w = Abort Panic.
Proof.
  intros Hin Hlt. unfold remove_timeout_tasks, mbind at 1, M_bind at 1, bind at 1, gets.
  unfold mbind, M_bind, bind. rewrite (sweep_fold_panics now _ [] w t Hin Hlt). reflexivity.
Qed.

Lemma foldl_cascade_name (dropped : list Task.t) c : forall oc cl,
  (forall cl0, oc = Some cl0 -> Client.name cl0 = c) ->
  foldl (fun oc t => oc ≫= cascade (Task.response_topic t)) oc dropped = Some cl ->
  Client.name cl = c.
Proof.
  induction dropped as [|t dropped IH]; intros oc cl Hoc H; cbn in H.
  - exact (Hoc cl H).
  - apply (IH (oc ≫= cascade (Task.response_topic t)) cl); [|exact H]. intros cl1 H1.
    destruct oc as [cl0|]; [|discriminate H1]. cbn in H1. unfold cascade in H1.
    destruct (is_empty _); [discriminate H1|]. injection H1 as <-. exact (Hoc cl0 eq_refl).
Qed.

Lemma filter_twice {A} (f : A -> bool) (l : list A) :
  List.filter f (List.filter f l) = List.filter f l.
Proof.
  induction l as [|x l IH]; cbn; [reflexivity|].
  destruct (f x) eqn:Hf; cbn; [rewrite Hf, IH; reflexivity | exact IH].
Qed.

Lemma filter_neg_filter {A} (f : A -> bool) (l : list A) :
  List.filter (fun x => negb (f x)) (List.filter f l) = [].
Proof.
  induction l as [|x l IH]; cbn; [reflexivity|].
  destruct (f x) eqn:Hf; cbn; [rewrite Hf; exact IH | exact IH].
Qed.

Lemma remove_timeout_tasks_run now (w : World) :
  Forall (fun t => Task.date t <= now) (Broker.tasks (broker w)) ->
  keys_match (Broker.clients (broker w)) ->
  let T := Broker.timeout_as_secs (broker w) in
  let dropped := List.filter (fun t => negb (is_fresh now T t)) (Broker.tasks (broker w)) in
  exists w1,
    remove_timeout_tasks now w =
      Done tt (mkWorld (Broker.set_tasks (broker w1)
                          (List.filter (is_fresh now T) (Broker.tasks (broker w)))) (out w1)) /\
    Broker.timeout_as_secs (broker w1) = T /\
    Broker.tasks_to_retry (broker w1) = Broker.tasks_to_retry (broker w) /\
    out w1 = out w /\
    Broker.topics (broker w1) =
      foldl (fun m t => delete (Task.response_topic t) m) (Broker.topics (broker w)) dropped /\
    (forall c, Broker.clients (broker w1) !! c =
      foldl (fun oc t => oc ≫= cascade (Task.response_topic t)) (Broker.clients (broker w) !! c) dropped).
Proof.
  intros Hd Hk. cbv zeta. rewrite Forall_forall in Hd.
  destruct (sweep_loop now (Broker.tasks (broker w)) [] w Hd Hk)
    as (w1 & Hrun & HT & Hts & Hr & Ho & Htp & Hcl).
  exists w1. unfold remove_timeout_tasks, mbind, M_bind, bind, gets. cbn beta iota.
  rewrite Hrun. unfold modify. auto 6.
Qed.

(** At a fixed time, when no task is dated in the future and client rows
    are keyed by their names, a second sweep right after the first changes
    nothing: the first one already dropped every expired task and its
    cascade. *)
Theorem remove_timeout_tasks_idempotent now (w w' : World) :
  Forall (fun t => Task.date t <= now) (Broker.tasks (broker w)) ->
  keys_match (Broker.clients (broker w)) ->
  remove_timeout_tasks now w = Done tt w' ->
  remove_timeout_tasks now w' = Done tt w'.
Proof.
  intros Hd Hk H.
  destruct (remove_timeout_tasks_run now w Hd Hk) as (w1 & Hrun & HT & Hr & Ho & Htp & Hcl).
  rewrite Hrun in H. injection H as <-.
  set (T := Broker.timeout_as_secs (broker w)) in *.
  set (kept := List.filter (is_fresh now T) (Broker.tasks (broker w))).
  set (w' := mkWorld (Broker.set_tasks (broker w1) kept) (out w1)).
  assert (Hd' : Forall (fun t => Task.date t <= now) (Broker.tasks (broker w'))).
  { cbn. apply Forall_forall. intros t Ht. apply list_elem_of_In, filter_In in Ht as [Ht _].
    rewrite Forall_forall in Hd. apply Hd, list_elem_of_In, Ht. }
  assert (Hk' : keys_match (Broker.clients (broker w'))).
  { intros c cl Hc. cbn in Hc. rewrite Hcl in Hc.
    refine (foldl_cascade_name _ c (Broker.clients (broker w) !! c) cl _ Hc). intros cl0 H0. exact (Hk c cl0 H0). }
  destruct (remove_timeout_tasks_run now w' Hd' Hk') as (w2 & Hrun2 & HT2 & Hr2 & Ho2 & Htp2 & Hcl2).
  rewrite Hrun2.
  assert (HTw' : Broker.timeout_as_secs (broker w') = T) by (cbn; exact HT).
  rewrite HTw' in *.
  assert (Hnone : List.filter (fun t => negb (is_fresh now T t)) (Broker.tasks (broker w')) = [])
    by (cbn; apply filter_neg_filter).
  rewrite Hnone in Htp2, Hcl2. cbn [foldl] in Htp2, Hcl2.
  assert (Hkept : List.filter (is_fresh now T) (Broker.tasks (broker w')) = kept)
    by (cbn; apply filter_twice).
  rewrite Hkept.
  assert (Hcl2' : Broker.clients (broker w2) = Broker.clients (broker w')) by (apply map_eq; exact Hcl2).
  subst w'. destruct w2 as [[T2 c2 tp2 ts2 r2] o2]. destruct w1 as [[T1 c1 tp1 ts1 r1] o1].
  cbn in *. subst. reflexivity.
Qed.

(** A task in flight, dispatched at time 5. *)
Definition in_flight_at_5 : World := world_of (run all_reachable 5 scenario_in_flight init).
Definition task_at_5 : Task.t := Task.mk "T" (Some "w1") "R" 1 "P" 5 true.

Lemma remove_timeout_tasks_future_panics_witness :
  task_at_5 ∈ Broker.tasks (broker in_flight_at_5) /\ 4 < Task.date task_at_5
  /\ remove_timeout_tasks 4 in_flight_at_5 = Abort Panic.
Proof.
  assert (H1 : task_at_5 ∈ Broker.tasks (broker in_flight_at_5)).
  { assert (E : Broker.tasks (broker in_flight_at_5) = [task_at_5]) by (vm_compute; reflexivity).
    rewrite E. apply list_elem_of_here. }
  assert (H2 : 4 < Task.date task_at_5) by (simpl; lia).
  split; [exact H1|]. split; [exact H2|].
  exact (remove_timeout_tasks_future_panics 4 in_flight_at_5 task_at_5 H1 H2).
Defined.

Lemma remove_timeout_tasks_idempotent_witness :
  Forall (fun t => Task.date t <= 60) (Broker.tasks (broker double_subscription))
  /\ keys_match (Broker.clients (broker double_subscription))
  /\ remove_timeout_tasks 60 double_subscription
     = Done tt (world_of (remove_timeout_tasks 60 double_subscription))
  /\ remove_timeout_tasks 60 (world_of (remove_timeout_tasks 60 double_subscription))
     = Done tt (world_of (remove_timeout_tasks 60 double_subscription)).
Proof.
  assert (H1 : Forall (fun t => Task.date t <= 60) (Broker.tasks (broker double_subscription)))
    by (apply (bool_decide_unpack _); vm_compute; reflexivity).
  assert (H2 : map_Forall (fun c cl => Client.name cl = c)
                 (Broker.clients (broker double_subscription)))
    by (apply (bool_decide_unpack _); vm_compute; reflexivity).
  assert (H3 : remove_timeout_tasks 60 double_subscription
     = Done tt (world_of (remove_timeout_tasks 60 double_subscription)))
    by (vm_compute; reflexivity).
  split; [exact H1|]. split; [exact H2|]. split; [exact H3|].
  exact (remove_timeout_tasks_idempotent 60 double_subscription _ H1 H2 H3).
Defined.

(** ** The debug line *)



(** ** Assembling messages from frames (lines 289-315) *)

(** A frame as [socket.recv] delivers it: its text ([None] when it is not
    valid UTF-8, where [as_str().unwrap()] panics) and its "more" flag. *)
Record Frame := mkFrame { text : option string; more : bool }.

(** One iteration of the [loop] of [main]: the frame is stored in the
    variable selected by [index] ([panic!] past the fourth), and the
    message is handled when the frame is the last of its message.  The four
    variables live across messages, so they are carried in a [Msg]. *)
Definition recv_frame (deliver : string -> bool) (now : nat) (st : nat * Msg) (f : Frame)
  : M (nat * Msg) :=
  let '(index, m) := st in
  match text f with
  | None => panic
  | Some part =>
      m' ← match index with
           | 0 => ret (mkMsg part (topic m) (response_topic m) (payload m))
           | 1 => ret (mkMsg (identity m) part (response_topic m) (payload m))
           | 2 => ret (mkMsg (identity m) (topic m) part (payload m))
           | 3 => ret (mkMsg (identity m) (topic m) (response_topic m) part)
           | _ => panic
           end;
      if more f then ret (S index, m')
      else step deliver now m' ;; ret (0, m')
  end.

Fixpoint main_loop (deliver : string -> bool) (now : nat) (fs : list Frame) (st : nat * Msg)
  : M (nat * Msg) :=
  match fs with
  | [] => ret st
  | f :: fs' => st' ← recv_frame deliver now st f; main_loop deliver now fs' st'
  end.

(** The frames of one multipart message: all but the last are flagged. *)
Fixpoint message_frames (parts : list string) : list Frame :=
  match parts with
  | [] => []
  | [p] => [mkFrame (Some p) false]
  | p :: ps => mkFrame (Some p) true :: message_frames ps
  end.

(** The variables after a message of the given frames: the first ones are
    overwritten, the others keep the previous message's values. *)
Definition overlay (parts : list string) (m : Msg) : Msg :=
  mkMsg (nth 0 parts (identity m)) (nth 1 parts (topic m))
        (nth 2 parts (response_topic m)) (nth 3 parts (payload m)).

(** A message of one to four UTF-8 frames, received at the start of a
    message, is handled as the message whose first fields are its frames
    and whose remaining fields are those of the previous message (a
    two-frame message reuses the previous response topic and payload); the
    loop is then back at the start of a message. *)
Theorem main_loop_message deliver now (parts : list string) (fs : list Frame) (m : Msg) (w : World) :
  1 <= length parts <= 4 ->
  main_loop deliver now (message_frames parts ++ fs) (0, m) w =
  (step deliver now (overlay parts m) ;; main_loop deliver now fs (0, overlay parts m)) w.
Proof.
  intros Hlen.
  destruct parts as [|p1 [|p2 [|p3 [|p4 [|p5 ps]]]]]; cbn in Hlen; try lia;
    cbv [main_loop recv_frame message_frames app text more mbind M_bind bind ret overlay nth
         identity topic response_topic payload];
    destruct (step deliver now _ w); reflexivity.
Qed.

(** A fifth frame in one message makes [main] panic, whatever it holds. *)
Theorem main_loop_fifth_frame_panics deliver now (p1 p2 p3 p4 : string) (f : Frame)
    (fs : list Frame) (m : Msg) (w : World) :
  main_loop deliver now
    (mkFrame (Some p1) true :: mkFrame (Some p2) true :: mkFrame (Some p3) true
       :: mkFrame (Some p4) true :: f :: fs) (0, m) w = Abort Panic.
Proof.
  cbv [main_loop recv_frame text more mbind M_bind bind ret panic].
  destruct f as [[t|] b]; reflexivity.
Qed.

(** The fields left by an earlier request of [c]: a new two-frame message
    of [x] for [T0] overwrites identity and topic and keeps the rest. *)
Definition previous_request : Msg := mkMsg "c" "T" "R" "p".

Lemma main_loop_message_witness :
  1 <= length ["x"; "T0"] <= 4
  /\ main_loop all_reachable 0 (message_frames ["x"; "T0"] ++ []) (0, previous_request) init =
     (step all_reachable 0 (mkMsg "x" "T0" "R" "p") ;;
      main_loop all_reachable 0 [] (0, mkMsg "x" "T0" "R" "p")) init.
Proof.
  assert (H : 1 <= length ["x"; "T0"] <= 4) by (simpl; lia).
  split; [exact H|].
  exact (main_loop_message all_reachable 0 ["x"; "T0"] [] previous_request init H).
Defined.

(** ** The two sides of a subscription *)

Definition client_topics (b : Broker.t) (c : string) : list string :=
  default [] (Client.topics <$> Broker.clients b !! c).
Definition topic_workers (b : Broker.t) (T : string) : list string :=
  default [] (Topic.workers <$> Broker.topics b !! T).
Definition topic_clients (b : Broker.t) (T : string) : list string :=
  default [] (Topic.clients <$> Broker.topics b !! T).

(** Each identity names a topic in its own list as often as the topic
    names the identity in its worker and client lists together. *)
Definition balanced (b : Broker.t) : Prop :=
  forall c T, occurrences T (client_topics b c)
              = occurrences c (topic_workers b T) + occurrences c (topic_clients b T).

Lemma occurrences_snoc x l y :
  occurrences x (l ++ [y]) = occurrences x l + (if String.eqb x y then 1 else 0).
Proof. unfold occurrences. rewrite List.filter_app, length_app. cbn. destruct (String.eqb x y); reflexivity. Qed.

Lemma occurrences_nil x : occurrences x [] = 0.
Proof. reflexivity. Qed.

Lemma occurrences_app x l1 l2 : occurrences x (l1 ++ l2) = occurrences x l1 + occurrences x l2.
Proof. unfold occurrences. rewrite List.filter_app, length_app. reflexivity. Qed.

Lemma add_client_run is_worker identity response_topic w :
  exists w', add_client is_worker identity response_topic w = Done tt w' /\
    (forall c, client_topics (broker w') c =
       if String.eqb c identity then client_topics (broker w) c ++ [response_topic]
       else client_topics (broker w) c) /\
    (forall T, topic_workers (broker w') T =
       if String.eqb T response_topic
       then topic_workers (broker w) T ++ (if is_worker then [identity] else [])
       else topic_workers (broker w) T) /\
    (forall T, topic_clients (broker w') T =
       if String.eqb T response_topic
       then topic_clients (broker w) T ++ (if is_worker then [] else [identity])
       else topic_clients (broker w) T) /\
    (forall c cl', Broker.clients (broker w') !! c = Some cl' ->
       Broker.clients (broker w) !! c = Some cl' \/
       (c = identity /\ Client.name cl' =
          default identity (Client.name <$> Broker.clients (broker w) !! identity))).
Proof.
  eexists. split; [reflexivity|]. cbn.
  split; [|split; [|split]].
  - intros c. unfold client_topics. cbn. destruct (String.eqb_spec c identity) as [->|Hne].
    + rewrite lookup_insert_eq. destruct (Broker.clients (broker w) !! identity); reflexivity.
    + rewrite lookup_insert_ne by congruence. reflexivity.
  - intros T. unfold topic_workers. cbn. destruct (String.eqb_spec T response_topic) as [->|Hne].
    + rewrite lookup_insert_eq. destruct (Broker.topics (broker w) !! response_topic), is_worker;
        cbn; rewrite ?app_nil_r; reflexivity.
    + rewrite lookup_insert_ne by congruence. reflexivity.
  - intros T. unfold topic_clients. cbn. destruct (String.eqb_spec T response_topic) as [->|Hne].
    + rewrite lookup_insert_eq. destruct (Broker.topics (broker w) !! response_topic), is_worker;
        cbn; rewrite ?app_nil_r; reflexivity.
    + rewrite lookup_insert_ne by congruence. reflexivity.
  - intros c cl' H. cbn in H. destruct (String.eqb_spec c identity) as [->|Hne].
    + rewrite lookup_insert_eq in H. injection H as <-. right. split; [reflexivity|].
      destruct (Broker.clients (broker w) !! identity); reflexivity.
    + rewrite lookup_insert_ne in H by congruence. auto.
Qed.

(** [add_client] keeps both sides of every subscription in step, and keeps
    every client row keyed by its name: registering [identity] on
    [response_topic] adds one entry on each side. *)
Theorem add_client_keeps_balance is_worker identity response_topic (w w' : World) :
  balanced (broker w) -> keys_match (Broker.clients (broker w)) ->
  add_client is_worker identity response_topic w = Done tt w' ->
  balanced (broker w') /\ keys_match (Broker.clients (broker w')).
Proof.
  intros Hb Hk H.
  destruct (add_client_run is_worker identity response_topic w) as (w1 & H1 & Hc & Hw & Hcl & Hn).
  rewrite H1 in H. injection H as <-. split.
  - intros c T. rewrite Hc, Hw, Hcl. pose proof (Hb c T) as E.
    destruct (String.eqb c identity) eqn:E1, (String.eqb T response_topic) eqn:E2;
      destruct is_worker;
      rewrite ?occurrences_app, ?occurrences_snoc, ?occurrences_single, ?occurrences_nil, ?E1, ?E2;
      lia.
  - intros c cl' Hl. destruct (Hn c cl' Hl) as [Hold|[-> Hname]]; [exact (Hk c cl' Hold)|].
    rewrite Hname. destruct (Broker.clients (broker w) !! identity) as [c0|] eqn:H0; [|reflexivity].
    exact (Hk _ _ H0).
Qed.

(** Every name in a broker: the keys of both tables and the contents of
    all the lists they hold.  Outside these names both sides of [balanced]
    are [0], so checking them is enough. *)
Definition names_of (b : Broker.t) : list string :=
  (map_to_list (Broker.clients b)).*1 ++ (map_to_list (Broker.topics b)).*1
  ++ mjoin ((fun kc => Client.topics kc.2) <$> map_to_list (Broker.clients b))
  ++ mjoin ((fun kt => Topic.workers kt.2 ++ Topic.clients kt.2) <$> map_to_list (Broker.topics b)).

Definition balanced_b (b : Broker.t) : bool :=
  forallb (fun c => forallb (fun T =>
    Nat.eqb (occurrences T (client_topics b c))
            (occurrences c (topic_workers b T) + occurrences c (topic_clients b T)))
    (names_of b)) (names_of b).

Lemma occurrences_not_in x l : x ∉ l -> occurrences x l = 0.
Proof.
  induction l as [|y l IH]; intros H; [reflexivity|].
  apply not_elem_of_cons in H as [H1 H2]. rewrite occurrences_cons.
  destruct (String.eqb_spec x y); [contradiction|]. exact (IH H2).
Qed.

Lemma names_client_key b c cl : Broker.clients b !! c = Some cl -> c ∈ names_of b.
Proof.
  intros H. unfold names_of. apply elem_of_app. left.
  apply list_elem_of_fmap. exists (c, cl). split; [reflexivity|].
  apply elem_of_map_to_list, H.
Qed.

Lemma names_topic_key b T tp : Broker.topics b !! T = Some tp -> T ∈ names_of b.
Proof.
  intros H. unfold names_of. apply elem_of_app. right. apply elem_of_app. left.
  apply list_elem_of_fmap. exists (T, tp). split; [reflexivity|].
  apply elem_of_map_to_list, H.
Qed.

Lemma names_client_topic b c cl T :
  Broker.clients b !! c = Some cl -> T ∈ Client.topics cl -> T ∈ names_of b.
Proof.
  intros H HT. unfold names_of. apply elem_of_app. right. apply elem_of_app. right.
  apply elem_of_app. left. apply list_elem_of_join. exists (Client.topics cl). split; [exact HT|].
  apply list_elem_of_fmap. exists (c, cl). split; [reflexivity|].
  apply elem_of_map_to_list, H.
Qed.

Lemma names_topic_member b T tp c :
  Broker.topics b !! T = Some tp -> c ∈ Topic.workers tp ++ Topic.clients tp -> c ∈ names_of b.
Proof.
  intros H Hc. unfold names_of. apply elem_of_app. right. apply elem_of_app. right.
  apply elem_of_app. right. apply list_elem_of_join.
  exists (Topic.workers tp ++ Topic.clients tp). split; [exact Hc|].
  apply list_elem_of_fmap. exists (T, tp). split; [reflexivity|].
  apply elem_of_map_to_list, H.
Qed.

Lemma balanced_b_sound b : balanced_b b = true -> balanced b.
Proof.
  intros H c T. unfold balanced_b in H.
  destruct (decide (c ∈ names_of b)) as [Hc|Hc].
  - destruct (decide (T ∈ names_of b)) as [HT|HT].
    + rewrite forallb_forall in H. apply list_elem_of_In in Hc, HT.
      specialize (H c Hc). rewrite forallb_forall in H. specialize (H T HT).
      apply Nat.eqb_eq, H.
    + unfold client_topics, topic_workers, topic_clients.
      destruct (Broker.topics b !! T) as [tp|] eqn:Et;
        [exfalso; exact (HT (names_topic_key _ _ _ Et))|].
      destruct (Broker.clients b !! c) as [cl|] eqn:Ec; [|reflexivity].
      rewrite (occurrences_not_in T (default [] (Client.topics <$> Some cl))); [reflexivity|].
      intros Hin. exact (HT (names_client_topic _ _ _ _ Ec Hin)).
  - unfold client_topics, topic_workers, topic_clients.
    destruct (Broker.clients b !! c) as [cl|] eqn:Ec;
      [exfalso; exact (Hc (names_client_key _ _ _ Ec))|].
    destruct (Broker.topics b !! T) as [tp|] eqn:Et; [|reflexivity].
    rewrite (occurrences_not_in c (default [] (Topic.workers <$> Some tp))),
      (occurrences_not_in c (default [] (Topic.clients <$> Some tp))); [reflexivity| |].
    + intros Hin. apply Hc. apply (names_topic_member _ _ _ _ Et). apply elem_of_app; right; exact Hin.
    + intros Hin. apply Hc. apply (names_topic_member _ _ _ _ Et). apply elem_of_app; left; exact Hin.
Qed.

(** [c] works on [T] and [x] asks twice for [T] with answers on [R]; [c]
    then subscribes as a client to [R], appending to its own row and to
    [R]'s client list, which already exist. *)
Definition balance_start : World :=
  world_of (run all_reachable 0
    [mkMsg "c" "@@REGISTER" "T" ""; mkMsg "x" "T" "R" "1"; mkMsg "x" "T" "R" "2"] init).

Lemma add_client_keeps_balance_witness :
  balanced (broker balance_start) /\ keys_match (Broker.clients (broker balance_start))
  /\ add_client false "c" "R" balance_start
     = Done tt (world_of (add_client false "c" "R" balance_start))
  /\ balanced (broker (world_of (add_client false "c" "R" balance_start)))
  /\ keys_match (Broker.clients (broker (world_of (add_client false "c" "R" balance_start)))).
Proof.
  assert (H1 : balanced (broker balance_start))
    by (apply balanced_b_sound; vm_compute; reflexivity).
  assert (H2 : map_Forall (fun c cl => Client.name cl = c)
                 (Broker.clients (broker balance_start)))
    by (apply (bool_decide_unpack _); vm_compute; reflexivity).
  assert (H3 : add_client false "c" "R" balance_start
               = Done tt (world_of (add_client false "c" "R" balance_start)))
    by (vm_compute; reflexivity).
  split; [exact H1|]. split; [exact H2|]. split; [exact H3|].
  exact (add_client_keeps_balance false "c" "R" balance_start _ H1 H2 H3).
Defined.
